(** * nsls2/core.py: bin edges, histograms, image pre-processing, metadata

    A shallow embedding of the functions of [nsls2/core.py] and the
    properties their documentation states.

    Conventions of the embedding:
    - Numbers come in two models.  In [Np] and [Core] the [float] arguments
      of [bin_edges] and the entries of numeric arrays are exact rationals
      [Q], with [Qeq] ([==]) as equality: this model carries the properties
      that do not turn on rounding (the argument checks, the lengths, the
      case of [np.linspace], the totals, the store, the containers).  In
      [Binary64] they are IEEE 754 binary64 doubles, the kernel's [float],
      with rounding to nearest even, signed zeros, infinities and NaN: this
      model carries the properties of [bin_edges] with a step and of
      [bin_1D] that depend on the arithmetic of doubles.
    - In [Typed] the pixels of an array of images have the dtype of the
      array, and the images are subtracted in it: unsigned and signed
      integers wrap around, doubles round.
    - Python [int] arguments ([nbins], [nx]) are [Z].
    - [None]-able arguments are [option].
    - A call either returns or raises: [Py.outcome].
    - [img_subtraction_pre] and [bin_1D], whose arguments are arrays that
      the caller keeps, run on a store of arrays ([Np.heap]) where the
      properties are about the arrays as objects: arrays are passed by
      reference ([Np.loc]), views are read when they are used and every new
      array gets a new reference.  The array primitives themselves work on
      the lists of entries, as do the two functions in [Binary64] and
      [Typed]. *)

From Stdlib Require Import QArith Qround Qminmax Lqa Ascii String.
From stdpp Require Import gmap strings list fin_maps.
From Stdlib Require Import Floats Sorted.

Set Warnings "-register-all".
Set Warnings "-inexact-float".

Open Scope Q_scope.

(** ** Python: exceptions and outcomes *)

Module Py.

Inductive exn : Set :=
  | ValueError
  | IndexError
  | KeyError
  | TypeError
  | ZeroDivisionError
  | OverflowError.

Inductive outcome (A : Type) : Type :=
  | Return (a : A)
  | Raise (e : exn).

Arguments Return {A} a.
Arguments Raise {A} e.

(** [x is not None] *)
Definition is_not_None {A : Type} (x : option A) : bool :=
  match x with
  | Some _ => true
  | None => false
  end.

(** [sum] of a tuple of booleans ([True] counts 1). *)
Definition sum_bools (bs : list bool) : Z :=
  fold_right (fun (b : bool) acc => ((if b then 1 else 0) + acc)%Z) 0%Z bs.

(** [ret[-1]]: the last entry, [IndexError] on an empty sequence. *)
Definition index_last {A : Type} (l : list A) : outcome A :=
  match last l with
  | Some x => Return x
  | None => Raise IndexError
  end.

(** [x // y] followed by [int(...)], on numbers. *)
Definition floordiv (x y : Q) : outcome Z :=
  if Qeq_bool y 0 then Raise ZeroDivisionError else Return (Qfloor (x / y)).

(** *** Python values, as far as [MD_dict] looks into them

    [VMd value units] is an instance of the named tuple [md_value]. *)
Inductive pyval : Type :=
  | VNone
  | VBool (b : bool)
  | VInt (z : Z)
  | VFloat (q : Q)
  | VStr (s : string)
  | VTuple (items : list pyval)
  | VList (items : list pyval)
  | VMd (value units : pyval).

(** [isinstance(v, string_types)] *)
Definition is_string (v : pyval) : bool :=
  match v with
  | VStr _ => true
  | _ => false
  end.

(** [v is None] *)
Definition is_None (v : pyval) : bool :=
  match v with
  | VNone => true
  | _ => false
  end.

(** The characters of a string, each a string of length one. *)
Fixpoint chars (s : string) : list pyval :=
  match s with
  | EmptyString => []
  | String c s' => VStr (String c EmptyString) :: chars s'
  end.

(** The items of an iterable; [TypeError] when the value is not iterable. *)
Definition iter_items (v : pyval) : outcome (list pyval) :=
  match v with
  | VTuple items | VList items => Return items
  | VStr s => Return (chars s)
  | VMd value units => Return [value; units]
  | VNone | VBool _ | VInt _ | VFloat _ => Raise TypeError
  end.

(** [v[i]] for [0 <= i]: [TypeError] when [v] is not subscriptable,
    [IndexError] when [i] is out of range. *)
Definition subscript (v : pyval) (i : nat) : outcome pyval :=
  match iter_items v with
  | Return items =>
      match items !! i with
      | Some x => Return x
      | None => Raise IndexError
      end
  | Raise e => Raise e
  end.

(** [key.split(sep)] for a separator of one character. *)
Fixpoint split (sep : Ascii.ascii) (s : string) : list string :=
  match s with
  | EmptyString => [EmptyString]
  | String c s' =>
      if Ascii.eqb c sep then EmptyString :: split sep s'
      else
        match split sep s' with
        | [] => [String c EmptyString]
        | w :: ws => String c w :: ws
        end
  end.

(** [sep.join(items)] *)
Fixpoint join (sep : string) (items : list string) : string :=
  match items with
  | [] => EmptyString
  | s :: rest =>
      match rest with
      | [] => s
      | _ :: _ => String.append s (String.append sep (join sep rest))
      end
  end.

(** What the containers raise: the exceptions of [exn] and two more. *)
Inductive raised : Set :=
  | Builtin (e : exn)
  | AttributeError
  | RuntimeError.

Inductive result (A : Type) : Type :=
  | Returned (a : A)
  | Raised (e : raised).

Arguments Returned {A} a.
Arguments Raised {A} e.

End Py.

Export Py.

(** ** numpy: the array primitives the module calls *)

Module Np.

(** [np.arange(n)]: 0, 1, ..., n-1; empty when [n <= 0]. *)
Definition arange (n : Z) : list Z :=
  map Z.of_nat (seq 0 (Z.to_nat n)).

(** [arr * s], [a + arr], [a - arr] with a scalar. *)
Definition mul_scalar (arr : list Z) (s : Q) : list Q :=
  map (fun i => inject_Z i * s) arr.

Definition scalar_add (a : Q) (arr : list Q) : list Q :=
  map (fun v => a + v) arr.

Definition scalar_sub (a : Q) (arr : list Q) : list Q :=
  map (fun v => a - v) arr.

(** [arr - s] on an integer range, as in [np.arange(n) - center]. *)
Definition sub_scalar (arr : list Z) (s : Q) : list Q :=
  map (fun i => inject_Z i - s) arr.

(** [y[-1] = v] *)
Definition set_last (l : list Q) (v : Q) : list Q :=
  match l with
  | [] => []
  | _ => removelast l ++ [v]
  end.

(** [np.linspace(start, stop, num, endpoint=True)]:
    [y = arange(num) * step + start] with [step = (stop - start) / (num - 1)],
    and the last sample overwritten by [stop] when [num > 1]. *)
Definition linspace (start stop : Q) (num : Z) : outcome (list Q) :=
  if (num <? 0)%Z then Raise ValueError
  else
    let div := (num - 1)%Z in
    let delta := stop - start in
    let y :=
      if (0 <? div)%Z
      then map (fun v => v + start) (mul_scalar (arange num) (delta / inject_Z div))
      else map (fun v => v + start) (mul_scalar (arange num) delta) in
    Return (if (1 <? num)%Z then set_last y stop else y).

(** [np.min(x)]: [ValueError] on an empty array. *)
Definition amin (xs : list Q) : outcome Q :=
  match xs with
  | [] => Raise ValueError
  | x :: xs' => Return (fold_left Qmin xs' x)
  end.

(** [np.max(x)] *)
Definition amax (xs : list Q) : outcome Q :=
  match xs with
  | [] => Raise ValueError
  | x :: xs' => Return (fold_left Qmax xs' x)
  end.

(** [np.meshgrid(x, y)] with the default [indexing='xy']: both grids have
    shape [(len(y), len(x))], [X[i][j] = x[j]] and [Y[i][j] = y[i]]. *)
Definition meshgrid (x y : list Q) : list (list Q) * list (list Q) :=
  (map (fun _ => x) y, map (fun yi => map (fun _ => yi) x) y).

(** [arr.ravel()] of a two-dimensional array held as its rows
    (row-major, C order). *)
Definition ravel (rows : list (list Q)) : list Q := concat rows.

(** *** np.histogram with an explicit, possibly non-uniform, array of edges

    numpy computes the histogram through a cumulative histogram: for every
    edge but the last the total weight of the samples strictly below the
    edge ([searchsorted(..., 'left')] on the sorted samples), for the last
    edge the total weight of the samples below or equal
    ([searchsorted(..., 'right')]); the bin contents are the differences of
    neighbouring entries ([np.diff]). *)

(** Total weight of the samples [a_j < e] (or [a_j <= e] when [inclusive]). *)
Definition cum_weight (a w : list Q) (inclusive : bool) (e : Q) : Q :=
  fold_right Qplus 0
    (zip_with (fun aj wj =>
       if (if inclusive then Qle_bool aj e else negb (Qle_bool e aj))
       then wj else 0) a w).

Definition search_sorted_inclusive (a w : list Q) (bins : list Q) : list Q :=
  match last bins with
  | None => []
  | Some top =>
      map (cum_weight a w false) (removelast bins) ++ [cum_weight a w true top]
  end.

(** [np.diff] *)
Definition diff (l : list Q) : list Q :=
  zip_with (fun lo hi => hi - lo) l (tail l).

(** [np.any(bins[:-1] > bins[1:])] *)
Definition any_decreasing (bins : list Q) : bool :=
  existsb (fun b => b) (zip_with (fun lo hi => negb (Qle_bool lo hi)) bins (tail bins)).

(** [np.histogram(a, bins, weights)[0]] on the entries of the arrays;
    without weights every sample counts 1. *)
Definition histogram (a bins : list Q) (weights : option (list Q)) : outcome (list Q) :=
  let w :=
    match weights with
    | Some w => w
    | None => map (fun _ => 1) a
    end in
  if negb (length w =? length a)%nat then Raise ValueError
  else if any_decreasing bins then Raise ValueError
  else Return (diff (search_sorted_inclusive a w bins)).

(** *** The store of arrays

    Arrays are mutable objects passed by reference.  A cell of the store
    holds the entries of one array; an array of images keeps the number of
    pixels of one image ([shape[1:]]) next to the images. *)

Definition loc : Set := nat.

Inductive ndarray : Type :=
  | BoolArray (flags : list bool)
  | NumArray (xs : list Q)
  | ImgArray (npix : nat) (imgs : list (list Q)).

Abbreviation heap := (gmap loc ndarray).

(** A computation on the store; a raised exception keeps the store as the
    statements before it left it. *)
Definition M (A : Type) : Type := heap -> heap * outcome A.

Definition ret {A : Type} (a : A) : M A := fun h => (h, Return a).

Definition raise {A : Type} (e : exn) : M A := fun h => (h, Raise e).

Definition lift {A : Type} (o : outcome A) : M A := fun h => (h, o).

Definition bind {A B : Type} (m : M A) (k : A -> M B) : M B :=
  fun h =>
    match m h with
    | (h', Return a) => k a h'
    | (h', Raise e) => (h', Raise e)
    end.

(** A new array object: a reference no array of the store has. *)
Definition alloc (a : ndarray) : M loc :=
  fun h => let l := fresh (dom h) in (<[l := a]> h, Return l).

(** The array a reference names; a reference that names no array of the
    expected kind is a [TypeError]. *)
Definition load (l : loc) : M ndarray :=
  fun h =>
    match h !! l with
    | Some a => (h, Return a)
    | None => (h, Raise TypeError)
    end.

Definition store (l : loc) (a : ndarray) : M unit :=
  fun h => (<[l := a]> h, Return tt).

Definition load_nums (l : loc) : M (list Q) :=
  bind (load l) (fun a =>
    match a with
    | NumArray xs => ret xs
    | _ => raise TypeError
    end).

Definition load_flags (l : loc) : M (list bool) :=
  bind (load l) (fun a =>
    match a with
    | BoolArray bs => ret bs
    | _ => raise TypeError
    end).

Definition load_imgs (l : loc) : M (nat * list (list Q)) :=
  bind (load l) (fun a =>
    match a with
    | ImgArray npix imgs => ret (npix, imgs)
    | _ => raise TypeError
    end).

(** [arr[i]] for [0 <= i]: [IndexError] out of range. *)
Definition index {A : Type} (l : list A) (i : nat) : outcome A :=
  match l !! i with
  | Some x => Return x
  | None => Raise IndexError
  end.

(** [is_reference[i]] *)
Definition get_flag (l : loc) (i : nat) : M bool :=
  bind (load_flags l) (fun bs => lift (index bs i)).

(** [img_arr[i]], read through the view at the time of use. *)
Definition get_img (l : loc) (i : nat) : M (list Q) :=
  bind (load_imgs l) (fun a => lift (index (snd a) i)).

(** [arr[i] = img]: writes into the array [arr] names. *)
Definition set_img (l : loc) (i : nat) (img : list Q) : M unit :=
  bind (load_imgs l) (fun a =>
    if (i <? length (snd a))%nat
    then store l (ImgArray (fst a) (<[i := img]> (snd a)))
    else raise IndexError).

(** [np.sum(is_reference)]: the number of [True] flags. *)
Definition sum_flags (l : loc) : M nat :=
  bind (load_flags l) (fun bs => ret (length (filter (fun b => b = true) bs))).

(** [np.zeros((n,) + shape, dtype)]: a new array of [n] images of zeros;
    [ValueError] on a negative dimension. *)
Definition zeros (n : Z) (npix : nat) : M loc :=
  if (n <? 0)%Z then raise ValueError
  else alloc (ImgArray npix (replicate (Z.to_nat n) (replicate npix 0))).

(** [img - ref_imge] on two images of one array. *)
Definition img_sub (img ref : list Q) : list Q := zip_with Qminus img ref.

(** [for x in xs: s = body(x, s)] *)
Fixpoint for_each {S : Type} (xs : list nat) (body : nat -> S -> M S) (s : S) : M S :=
  match xs with
  | [] => ret s
  | x :: xs' => bind (body x s) (for_each xs' body)
  end.

End Np.

Notation "'let*' x := m 'in' k" := (Np.bind m (fun x => k))
  (at level 10, x pattern, m at level 200, k at level 200, only parsing).

(** ** nsls2/core.py *)

Module Core.

(** The record [logger.debug] emits in [bin_edges]. *)
Inductive log_record : Type :=
  | DebugTruncated (range_min range_max step gap : Q).

(** A computation that may emit log records. *)
Definition logged (A : Type) : Type := (list log_record * A)%type.

Definition silent {A : Type} (a : A) : logged A := ([], a).

(** [bin_edges(range_min=None, range_max=None, nbins=None, step=None)] *)
Definition bin_edges (range_min range_max : option Q) (nbins : option Z)
    (step : option Q) : logged (outcome (list Q)) :=
  let num_valid_args :=
    sum_bools [is_not_None range_min; is_not_None range_max;
               is_not_None step; is_not_None nbins] in
  if negb (num_valid_args =? 3)%Z then silent (Raise ValueError)
  else if
    match range_min, range_max with
    | Some lo, Some hi => Qle_bool hi lo
    | _, _ => false
    end
  then silent (Raise ValueError)
  else if
    match nbins with
    | Some n => (n <=? 0)%Z
    | None => false
    end
  then silent (Raise ValueError)
  else
    match step with
    | None =>
        (* the easy case *)
        match range_min, range_max, nbins with
        | Some lo, Some hi, Some n => silent (Np.linspace lo hi (n + 1))
        | _, _, _ => silent (Raise TypeError)
        end
    | Some st =>
        match nbins with
        | None =>
            (* the user gave min, max and step *)
            match range_min, range_max with
            | Some lo, Some hi =>
                if negb (Qle_bool st (hi - lo)) then silent (Raise ValueError)
                else
                  match floordiv (hi - lo) st with
                  | Raise e => silent (Raise e)
                  | Return nb =>
                      let ret :=
                        Np.scalar_add lo (Np.mul_scalar (Np.arange (nb + 1)) st) in
                      match index_last ret with
                      | Raise e => silent (Raise e)
                      | Return top =>
                          if negb (Qle_bool top hi) then silent (Return (removelast ret))
                          else if negb (Qle_bool (hi - top) ((1 # 10000000000) * st))
                          then ([DebugTruncated lo hi st (hi - top)], Return ret)
                          else silent (Return ret)
                      end
                  end
            | _, _ => silent (Raise TypeError)
            end
        | Some n =>
            match range_max with
            | None =>
                (* range_min, nbins, step *)
                match range_min with
                | Some lo =>
                    silent (Return (Np.scalar_add lo (Np.mul_scalar (Np.arange (n + 1)) st)))
                | None => silent (Raise TypeError)
                end
            | Some hi =>
                (* range_max, nbins, step *)
                match range_min with
                | None =>
                    silent (Return (Np.scalar_sub hi
                                     (Np.mul_scalar (rev (Np.arange (n + 1))) st)))
                | Some _ => silent (Raise TypeError)
                end
            end
        end
    end.

(** [_defaults] *)
Definition defaults_bins : Z := 100.

(** The body of the loop of [img_subtraction_pre] for the pair at position
    [i] of [img_arr] and [is_reference]; the loop state is
    [(ref_imge, count)], and [ref_imge] and [img] are views into [img_arr],
    kept as positions and read from the store when they are used. *)
Definition subtraction_step (img_arr is_reference corrected_image : Np.loc)
    (i : nat) (st : nat * nat) : Np.M (nat * nat) :=
  let '(ref_imge, count) := st in
  let* img := Np.get_img img_arr i in
  let* ref := Np.get_flag is_reference i in
  if ref then Np.ret (i, count)
  else
    let* ref_img := Np.get_img img_arr ref_imge in
    let* _ := Np.set_img corrected_image count (Np.img_sub img ref_img) in
    Np.ret (ref_imge, S count).

(** [img_subtraction_pre(img_arr, is_reference)] *)
Definition img_subtraction_pre (img_arr is_reference : Np.loc) : Np.M Np.loc :=
  let* first := Np.get_flag is_reference 0 in
  if negb first then Np.raise ValueError
  else
    let* _ := Np.get_img img_arr 0 in
    let ref_imge := 0%nat in
    let* ref_count := Np.sum_flags is_reference in
    let* arr := Np.load_imgs img_arr in
    let* flags := Np.load_flags is_reference in
    let* corrected_image :=
      Np.zeros (Z.of_nat (length (snd arr)) - Z.of_nat ref_count) (fst arr) in
    let* _ :=
      Np.for_each
        (seq 1 (Nat.min (length (snd arr) - 1) (length flags - 1)))
        (subtraction_step img_arr is_reference corrected_image)
        (ref_imge, 0%nat) in
    Np.ret corrected_image.

(** A 2D detector image: [img.shape] and the pixels in row-major order. *)
Record image : Type := Image {
  shape0 : nat;
  shape1 : nat;
  pixels : list Q
}.

(** [detector2D_to_1D(img, detector_center)] *)
Definition detector2D_to_1D (img : image) (detector_center : Q * Q)
    : list Q * list Q * list Q :=
  let '(X, Y) :=
    Np.meshgrid
      (Np.sub_scalar (Np.arange (Z.of_nat (shape0 img))) (fst detector_center))
      (Np.sub_scalar (Np.arange (Z.of_nat (shape1 img))) (snd detector_center)) in
  (Np.ravel X, Np.ravel Y, pixels img).

(** [np.histogram(a=x, bins=bins, weights=y)[0]] on arrays of the store;
    the result is a new array. *)
Definition histogram_of (a bins : Np.loc) (weights : option Np.loc) : Np.M Np.loc :=
  let* xs := Np.load_nums a in
  let* es := Np.load_nums bins in
  let* ws :=
    match weights with
    | Some y => let* ys := Np.load_nums y in Np.ret (Some ys)
    | None => Np.ret None
    end in
  let* hist := Np.lift (Np.histogram xs es ws) in
  Np.alloc (Np.NumArray hist).

(** [bin_1D(x, y, nx=None, min_x=None, max_x=None)] *)
Definition bin_1D (x y : Np.loc) (nx : option Z) (min_x max_x : option Q)
    : Np.M (Np.loc * Np.loc * Np.loc) :=
  let* min_x :=
    match min_x with
    | None => let* xs := Np.load_nums x in Np.lift (Np.amin xs)
    | Some m => Np.ret m
    end in
  let* max_x :=
    match max_x with
    | None => let* xs := Np.load_nums x in Np.lift (Np.amax xs)
    | Some m => Np.ret m
    end in
  let nx :=
    match nx with
    | None => defaults_bins
    | Some n => n
    end in
  let* edges := Np.lift (Np.linspace min_x max_x (nx + 1)) in
  let* bins := Np.alloc (Np.NumArray edges) in
  let* val := histogram_of x bins (Some y) in
  let* count := histogram_of x bins None in
  Np.ret (bins, val, count).

(** *** MD_dict

    The dictionary of an [MD_dict] maps a key to a leaf (an [md_value]) or to
    a nested [MD_dict].  Standard output (the [print] of [__setitem__]) is not
    part of the model. *)
Inductive node : Type :=
  | Leaf (value units : pyval)
  | Branch (_dict : gmap string node).

(** [md_value] called on the unpacked [val]: exactly two items,
    [TypeError] otherwise. *)
Definition md_value_star (val : pyval) : outcome (pyval * pyval) :=
  match iter_items val with
  | Return [value; units] => Return (value, units)
  | Return _ => Raise TypeError
  | Raise e => Raise e
  end.

(** The walk of [__setitem__] and [__getitem__] along [key_split[:-1]]:
    [tmp = tmp[k]._dict], and when that fails for any reason (no key [k], or
    a leaf, which has no [_dict]) a new empty [MD_dict] is put under [k]
    first.  [at_end] is the rest of the method, run on the dictionary the
    walk ends in.  The test [isinstance(tmp, md_value)] inside the loop is
    on a dictionary and never holds. *)
Fixpoint walk {A : Type} (path : list string) (tmp : gmap string node)
    (at_end : gmap string node -> gmap string node * A) : gmap string node * A :=
  match path with
  | [] => at_end tmp
  | k :: path' =>
      let sub :=
        match tmp !! k with
        | Some (Branch d) => d
        | _ => ∅
        end in
      let '(sub', a) := walk path' sub at_end in
      (<[k := Branch sub']> tmp, a)
  end.

(** The [md_value] that [__setitem__] stores for [val]; an exception other
    than [TypeError] leaves the [try] block. *)
Definition coerce (val : pyval) : outcome (pyval * pyval) :=
  match val with
  | VMd value units => Return (value, units)
  | VStr _ => Return (val, VStr "text")
  | _ =>
      match subscript val 1 with
      | Return second =>
          if is_string second || is_None second
          then
            match md_value_star val with
            | Return mv => Return mv
            | Raise TypeError => Return (val, VNone)
            | Raise e => Raise e
            end
          else Return (val, VNone)
      | Raise TypeError => Return (val, VNone)
      | Raise e => Raise e
      end
  end.

(** [MD_dict.__setitem__(self, key, val)] on [self._dict] *)
Definition MD_dict_setitem (_dict : gmap string node) (key : string) (val : pyval)
    : gmap string node * outcome unit :=
  let key_split := split "."%char key in
  walk (removelast key_split) _dict (fun tmp =>
    match coerce val with
    | Return (value, units) =>
        (<[List.last key_split EmptyString := Leaf value units]> tmp, Return tt)
    | Raise e => (tmp, Raise e)
    end).

(** [MD_dict.__getitem__(self, key)] on [self._dict]; [None] is [None]. *)
Definition MD_dict_getitem (_dict : gmap string node) (key : string)
    : gmap string node * option node :=
  let key_split := split "."%char key in
  walk (removelast key_split) _dict (fun tmp =>
    (tmp, tmp !! List.last key_split EmptyString)).

(** [MD_dict.__delitem__(self, key)]: the walk [tmp = tmp[k]._dict] along
    [key_split[:-1]] without the [try] of the other two methods, a missing
    key being a [KeyError] and a leaf, which has no [_dict], an
    [AttributeError]; then [del tmp[key_split[-1]]].  Nothing is changed
    before the last statement. *)
Fixpoint delete_walk (path : list string) (last_key : string) (tmp : gmap string node)
    : result (gmap string node) :=
  match path with
  | [] =>
      match tmp !! last_key with
      | Some _ => Returned (delete last_key tmp)
      | None => Raised (Builtin KeyError)
      end
  | k :: path' =>
      match tmp !! k with
      | None => Raised (Builtin KeyError)
      | Some (Leaf _ _) => Raised AttributeError
      | Some (Branch d) =>
          match delete_walk path' last_key d with
          | Returned d' => Returned (<[k := Branch d']> tmp)
          | Raised e => Raised e
          end
      end
  end.

Definition MD_dict_delitem (_dict : gmap string node) (key : string)
    : gmap string node * result unit :=
  let key_split := split "." key in
  match delete_walk (removelast key_split) (List.last key_split EmptyString) _dict with
  | Returned d' => (d', Returned tt)
  | Raised e => (_dict, Raised e)
  end.

(** [_iter_helper(path_list, split, md_dict)]: the names of the leaves, as
    the list of the values the generator yields.  [iter_entry] is the body of
    the loop for one item [(k, v)], [path_list] already extended by [k].  The
    order of the items of a dictionary is the order of [map_fold], which
    stands for the unspecified order of a Python dictionary. *)
Fixpoint iter_entry (path_list : list string) (sep : string) (v : node) : list string :=
  match v with
  | Leaf _ _ => [join sep path_list]
  | Branch d =>
      map_fold (fun k v' acc => iter_entry (path_list ++ [k]) sep v' ++ acc) [] d
  end.

Definition _iter_helper (path_list : list string) (sep : string)
    (md_dict : gmap string node) : list string :=
  map_fold (fun k v acc => iter_entry (path_list ++ [k]) sep v ++ acc) [] md_dict.

(** [MD_dict.__iter__(self)] and [MD_dict.__len__(self)] *)
Definition MD_dict_iter (_dict : gmap string node) : list string :=
  _iter_helper [] "." _dict.

Definition MD_dict_len (_dict : gmap string node) : nat :=
  length (MD_dict_iter _dict).

(** *** XR_data

    The meta-data object is a dictionary with string keys, held by value:
    that the caller's dictionary is the one the instance uses is not part of
    the model. *)
Record XR_data : Type := {
  _data : pyval;
  _md : gmap string pyval;
  mutable : bool
}.

(** [XR_data(data, md=None, mutable=True)] *)
Definition XR_data_init (data : pyval) (md : option (gmap string pyval))
    (mutable : option bool) : XR_data :=
  {| _data := data;
     _md := match md with Some d => d | None => ∅ end;
     mutable := match mutable with Some b => b | None => true end |}.

(** The [data] property and its setter. *)
Definition XR_data_data (self : XR_data) : pyval := _data self.

Definition XR_data_set_data (self : XR_data) (new_data : pyval)
    : XR_data * result unit :=
  if negb (mutable self) then (self, Raised RuntimeError)
  else ({| _data := new_data; _md := _md self; mutable := mutable self |}, Returned tt).

(** [XR_data.__getitem__(self, key)] *)
Definition XR_data_getitem (self : XR_data) (key : string) : result pyval :=
  match _md self !! key with
  | Some val => Returned val
  | None => Raised (Builtin KeyError)
  end.

(** [XR_data.__setitem__(self, key, val)] *)
Definition XR_data_setitem (self : XR_data) (key : string) (val : pyval)
    : XR_data * result unit :=
  if negb (mutable self) then (self, Raised RuntimeError)
  else ({| _data := _data self; _md := <[key := val]> (_md self);
           mutable := mutable self |}, Returned tt).

(** [XR_data.meta_data_keys(self)], in the order of the dictionary. *)
Definition XR_data_meta_data_keys (self : XR_data) : list string :=
  map fst (map_to_list (_md self)).

End Core.

Export Core.

(** ** Double precision

    [bin_edges] with its [float] arguments and [bin_1D] with two
    [float64] arrays once more, on IEEE 754 binary64 numbers: Python's
    [float] and numpy's [float64] are the kernel's [float], every operation
    rounded to nearest even, with signed zeros, infinities and NaN.  An
    array is the list of its entries; the memory it takes is not
    modelled. *)

Module Binary64.

(** *** Python's float *)

(** [float(i)] for an integer [i], also the conversion of an entry of an
    integer array that meets a double: the nearest double. *)
Definition of_Z (i : Z) : float :=
  SF2Prim (binary_normalize prec emax i 0 false).

(** The sign bit of a double (NaN counts as positive). *)
Definition signbit (x : float) : bool :=
  match Prim2SF x with
  | S754_zero s | S754_infinity s | S754_finite s _ _ => s
  | S754_nan => false
  end.

(** [copysign(0.0, x)] *)
Definition copysign_zero (x : float) : float :=
  if signbit x then (-0)%float else 0%float.

(** [fmod(x, y)] of the C library: the remainder of the division truncated
    towards zero, which is exact and has the sign of [x]. *)
Definition fmod (x y : float) : float :=
  match Prim2SF x, Prim2SF y with
  | S754_nan, _ | _, S754_nan => nan
  | S754_infinity _, _ => nan
  | _, S754_zero _ => nan
  | S754_zero _, _ => x
  | S754_finite _ _ _, S754_infinity _ => x
  | S754_finite sx mx ex, S754_finite _ my ey =>
      let e := Z.min ex ey in
      let r := Z.rem (Z.pos mx * 2 ^ (ex - e)) (Z.pos my * 2 ^ (ey - e)) in
      SF2Prim (binary_normalize prec emax (if sx then - r else r) e sx)
  end.

(** [floor(x)] of the C library *)
Definition floor (x : float) : float :=
  match Prim2SF x with
  | S754_finite s m e =>
      if (0 <=? e)%Z then x
      else SF2Prim (binary_normalize prec emax
                      ((if s then Z.neg m else Z.pos m) / 2 ^ (- e)) 0 s)
  | _ => x
  end.

(** [vx // wx] on two floats, as [float_floor_div] computes it: the
    quotient of [vx] less its remainder, snapped to the nearest integer. *)
Definition floordiv (vx wx : float) : outcome float :=
  if (wx =? 0)%float then Raise ZeroDivisionError
  else
    let rem := fmod vx wx in
    let div := ((vx - rem) / wx)%float in
    let div :=
      if negb (rem =? 0)%float && negb (Bool.eqb (wx <? 0)%float (rem <? 0)%float)
      then (div - 1)%float
      else div in
    Return
      (if negb (div =? 0)%float
       then
         let floordiv := floor div in
         if (0.5 <? div - floordiv)%float then (floordiv + 1)%float else floordiv
       else copysign_zero (vx / wx)%float).

(** [int(x)]: truncation towards zero; [ValueError] on NaN, [OverflowError]
    on an infinity. *)
Definition int (x : float) : outcome Z :=
  match Prim2SF x with
  | S754_nan => Raise ValueError
  | S754_infinity _ => Raise OverflowError
  | S754_zero _ => Return 0%Z
  | S754_finite s m e =>
      let n := if (0 <=? e)%Z then (Z.pos m * 2 ^ e)%Z else (Z.pos m / 2 ^ (- e))%Z in
      Return (if s then (- n)%Z else n)
  end.

(** *** numpy on float64 arrays *)

(** [arr * s] for an integer array and a float, [a + arr] and [a - arr]
    for a float and a float64 array. *)
Definition mul_scalar (arr : list Z) (s : float) : list float :=
  map (fun i => (of_Z i * s)%float) arr.

Definition scalar_add (a : float) (arr : list float) : list float :=
  map (fun v => (a + v)%float) arr.

Definition scalar_sub (a : float) (arr : list float) : list float :=
  map (fun v => (a - v)%float) arr.

(** [y[-1] = v] *)
Definition set_last (l : list float) (v : float) : list float :=
  match l with
  | [] => []
  | _ => removelast l ++ [v]
  end.

(** [np.linspace(start, stop, num, endpoint=True)] on two floats:
    [y = arange(num) * step + start] with [step = (stop - start) / (num - 1)];
    when that step rounds to zero, [y = arange(num) / (num - 1) * (stop - start)
    + start] instead; the last sample is overwritten by [stop] when
    [num > 1].  ([start] and [stop] are first multiplied by [1.0], which
    leaves a double as it is.) *)
Definition linspace (start stop : float) (num : Z) : outcome (list float) :=
  if (num <? 0)%Z then Raise ValueError
  else
    let div := (num - 1)%Z in
    let delta := (stop - start)%float in
    let y := map of_Z (Np.arange num) in
    let y :=
      if (0 <? div)%Z
      then
        let step := (delta / of_Z div)%float in
        if (step =? 0)%float
        then map (fun v => (v / of_Z div * delta)%float) y
        else map (fun v => (v * step)%float) y
      else map (fun v => (v * delta)%float) y in
    let y := map (fun v => (v + start)%float) y in
    Return (if (1 <? num)%Z then set_last y stop else y).

(** [np.minimum], [np.maximum]: a NaN operand is the result. *)
Definition minimum (a b : float) : float :=
  if is_nan a then a else if is_nan b then b else if (b <? a)%float then b else a.

Definition maximum (a b : float) : float :=
  if is_nan a then a else if is_nan b then b else if (a <? b)%float then b else a.

(** [np.min(x)], [np.max(x)]: [ValueError] on an empty array. *)
Definition amin (xs : list float) : outcome float :=
  match xs with
  | [] => Raise ValueError
  | x :: xs' => Return (fold_left minimum xs' x)
  end.

Definition amax (xs : list float) : outcome float :=
  match xs with
  | [] => Raise ValueError
  | x :: xs' => Return (fold_left maximum xs' x)
  end.

(** The order numpy sorts and searches doubles by: NaN comes after every
    number. *)
Definition np_lt (a b : float) : bool :=
  (a <? b)%float || (is_nan b && negb (is_nan a)).

(** [a[np.argsort(a)]] together with [w[np.argsort(a)]]: the samples, each
    with its weight, in increasing order of the samples.  (Samples that are
    equal keep their order here; numpy's default sort does not say in which
    order it leaves them.) *)
Fixpoint insert_by_key {A : Type} (p : float * A) (l : list (float * A))
    : list (float * A) :=
  match l with
  | [] => [p]
  | q :: l' => if np_lt (fst q) (fst p) then q :: insert_by_key p l' else p :: q :: l'
  end.

Definition sort_by_key {A : Type} (l : list (float * A)) : list (float * A) :=
  foldr insert_by_key [] l.

(** [np.sort(a)] *)
Definition sort (a : list float) : list float :=
  map fst (sort_by_key (map (fun x => (x, tt)) a)).

(** [sa.searchsorted(v, 'left')] and [sa.searchsorted(v, 'right')] on a
    sorted array: the number of entries before [v], and the number of
    entries not after it. *)
Definition searchsorted_left (sa : list float) (v : float) : nat :=
  length (filter (fun a => np_lt a v = true) sa).

Definition searchsorted_right (sa : list float) (v : float) : nat :=
  length (filter (fun a => np_lt v a = false) sa).

(** [_search_sorted_inclusive(sa, v)]:
    [concatenate((sa.searchsorted(v[:-1], 'left'),
                  sa.searchsorted(v[-1:], 'right')))] *)
Definition search_sorted_inclusive (sa v : list float) : list nat :=
  map (searchsorted_left sa) (removelast v)
  ++ map (searchsorted_right sa) (drop (length v - 1) v).

(** The samples are handled in blocks of [BLOCK]:
    [a[i:i+BLOCK] for i in range(0, len(a), BLOCK)]. *)
Definition BLOCK : Z := 65536.

Fixpoint blocks_upto {A : Type} (fuel : nat) (a : list A) : list (list A) :=
  match fuel with
  | O => []
  | S fuel' =>
      match a with
      | [] => []
      | _ :: _ =>
          take (Z.to_nat BLOCK) a :: blocks_upto fuel' (drop (Z.to_nat BLOCK) a)
      end
  end.

Definition blocks {A : Type} (a : list A) : list (list A) :=
  blocks_upto (length a) a.

(** [np.any(bins[:-1] > bins[1:])] *)
Definition any_decreasing (bins : list float) : bool :=
  existsb (fun b => b) (zip_with (fun lo hi => (hi <? lo)%float) bins (tail bins)).

(** [np.diff] of an array of integers and of an array of doubles. *)
Definition diff_int (l : list Z) : list Z :=
  zip_with (fun lo hi => (hi - lo)%Z) l (tail l).

Definition diff (l : list float) : list float :=
  zip_with (fun lo hi => (hi - lo)%float) l (tail l).

(** [sw.cumsum()]: the running sums, each the one before plus the next
    entry. *)
Fixpoint cumsum_from (acc : float) (sw : list float) : list float :=
  match sw with
  | [] => []
  | w :: sw' => (acc + w)%float :: cumsum_from (acc + w)%float sw'
  end.

Definition cumsum (sw : list float) : list float :=
  match sw with
  | [] => []
  | w :: sw' => w :: cumsum_from w sw'
  end.

(** [np.histogram(a, bins)[0]] for an array of edges, without weights:
    for every block the sorted samples are searched for the edges, and the
    counts add up in an array of integers. *)
Definition histogram (a bins : list float) : outcome (list Z) :=
  if any_decreasing bins then Raise ValueError
  else
    let cum_n :=
      foldl (fun cum_n tmp_a =>
               zip_with (fun c k => (c + Z.of_nat k)%Z) cum_n
                 (search_sorted_inclusive (sort tmp_a) bins))
            (replicate (length bins) 0%Z) (blocks a) in
    Return (diff_int cum_n).

(** [np.histogram(a, bins, weights=w)[0]]: for every block the weights are
    put in the order of the samples and summed up, [cw = concatenate((zero,
    sw.cumsum()))], and [cw[bin_index]] adds to the running array of
    doubles [cum_n]. *)
Definition histogram_weighted (a bins w : list float) : outcome (list float) :=
  if negb (length w =? length a)%nat then Raise ValueError
  else if any_decreasing bins then Raise ValueError
  else
    let cum_n :=
      foldl (fun cum_n tmp =>
               let sorted := sort_by_key tmp in
               let sa := map fst sorted in
               let sw := map snd sorted in
               let cw := 0%float :: cumsum sw in
               let bin_index := search_sorted_inclusive sa bins in
               zip_with (fun c k => (c + default 0%float (cw !! k))%float)
                 cum_n bin_index)
            (replicate (length bins) 0%float) (blocks (zip a w)) in
    Return (diff cum_n).

(** *** nsls2/core.py on doubles *)

(** The record [logger.debug] emits in [bin_edges]. *)
Inductive log_record : Type :=
  | DebugTruncated (range_min range_max step gap : float).

Definition logged (A : Type) : Type := (list log_record * A)%type.

Definition silent {A : Type} (a : A) : logged A := ([], a).

(** [bin_edges(range_min=None, range_max=None, nbins=None, step=None)] with
    [float] bounds and step and an [int] number of bins, as its
    documentation types them. *)
Definition bin_edges (range_min range_max : option float) (nbins : option Z)
    (step : option float) : logged (outcome (list float)) :=
  let num_valid_args :=
    sum_bools [is_not_None range_min; is_not_None range_max;
               is_not_None step; is_not_None nbins] in
  if negb (num_valid_args =? 3)%Z then silent (Raise ValueError)
  else if
    match range_min, range_max with
    | Some lo, Some hi => (hi <=? lo)%float
    | _, _ => false
    end
  then silent (Raise ValueError)
  else if
    match nbins with
    | Some n => (n <=? 0)%Z
    | None => false
    end
  then silent (Raise ValueError)
  else
    match step with
    | None =>
        (* the easy case *)
        match range_min, range_max, nbins with
        | Some lo, Some hi, Some n => silent (linspace lo hi (n + 1))
        | _, _, _ => silent (Raise TypeError)
        end
    | Some st =>
        match nbins with
        | None =>
            (* the user gave min, max and step *)
            match range_min, range_max with
            | Some lo, Some hi =>
                if (hi - lo <? st)%float then silent (Raise ValueError)
                else
                  match floordiv (hi - lo)%float st with
                  | Raise e => silent (Raise e)
                  | Return quotient =>
                      match int quotient with
                      | Raise e => silent (Raise e)
                      | Return nb =>
                          let ret :=
                            scalar_add lo (mul_scalar (Np.arange (nb + 1)) st) in
                          match index_last ret with
                          | Raise e => silent (Raise e)
                          | Return top =>
                              if (hi <? top)%float
                              then silent (Return (removelast ret))
                              else if (1e-10 * st <? hi - top)%float
                              then ([DebugTruncated lo hi st (hi - top)%float],
                                    Return ret)
                              else silent (Return ret)
                          end
                      end
                  end
            | _, _ => silent (Raise TypeError)
            end
        | Some n =>
            match range_max with
            | None =>
                (* range_min, nbins, step *)
                match range_min with
                | Some lo =>
                    silent (Return (scalar_add lo (mul_scalar (Np.arange (n + 1)) st)))
                | None => silent (Raise TypeError)
                end
            | Some hi =>
                (* range_max, nbins, step *)
                match range_min with
                | None =>
                    silent (Return (scalar_sub hi
                                     (mul_scalar (rev (Np.arange (n + 1))) st)))
                | Some _ => silent (Raise TypeError)
                end
            end
        end
    end.

(** [bin_1D(x, y, nx=None, min_x=None, max_x=None)] on the entries of two
    float64 arrays; the three results are new arrays. *)
Definition bin_1D (x y : list float) (nx : option Z) (min_x max_x : option float)
    : outcome (list float * list float * list Z) :=
  match (match min_x with None => amin x | Some m => Return m end) with
  | Raise e => Raise e
  | Return min_x =>
      match (match max_x with None => amax x | Some m => Return m end) with
      | Raise e => Raise e
      | Return max_x =>
          let nx :=
            match nx with
            | None => defaults_bins
            | Some n => n
            end in
          match linspace min_x max_x (nx + 1) with
          | Raise e => Raise e
          | Return bins =>
              match histogram_weighted x bins y with
              | Raise e => Raise e
              | Return val =>
                  match histogram x bins with
                  | Raise e => Raise e
                  | Return count => Return (bins, val, count)
                  end
              end
          end
      end
  end.

End Binary64.

(** ** Arrays with a dtype

    The entries of a numpy array have the array's dtype, and arithmetic on
    two arrays of one dtype stays in it: integers wrap around, doubles
    round. *)

Module Typed.

(** A dtype whose arrays can be subtracted: the type of the entries, the
    zero [np.zeros] fills with and the subtraction of two entries.
    ([np.bool_] is no such dtype: numpy refuses to subtract two arrays of
    booleans.) *)
Record dtype : Type := Dtype {
  elem : Type;
  zero : elem;
  subtract : elem -> elem -> elem
}.

(** The low [bits] bits of an integer. *)
Definition wrap (bits : Z) (z : Z) : Z := Z.land z (Z.ones bits).

(** [np.uint8], [np.uint16], ...: unsigned integers of [bits] bits. *)
Definition uint (bits : Z) : dtype :=
  {| elem := Z; zero := 0%Z; subtract := fun a b => wrap bits (a - b) |}.

(** [np.int8], [np.int16], ...: signed integers of [bits] bits in two's
    complement. *)
Definition sint (bits : Z) : dtype :=
  {| elem := Z; zero := 0%Z;
     subtract := fun a b =>
       (wrap bits (a - b + 2 ^ (bits - 1)) - 2 ^ (bits - 1))%Z |}.

(** [np.float64] *)
Definition float64 : dtype :=
  {| elem := float; zero := 0%float; subtract := PrimFloat.sub |}.

Section ImgSubtraction.

Context (dt : dtype).

(** One image: its pixels; an array of images holds images of one shape,
    with [npix] pixels each. *)
Definition image : Type := list (elem dt).

(** [img - ref_imge] *)
Definition img_sub (img ref_imge : image) : image :=
  zip_with (subtract dt) img ref_imge.

(** The body of the loop of [img_subtraction_pre] for one pair of
    [zip(img_arr[1:], is_reference[1:])]; the loop state is
    [(ref_imge, count, corrected_image)]. *)
Definition subtraction_step (st : image * nat * list image) (p : image * bool)
    : outcome (image * nat * list image) :=
  let '(ref_imge, count, corrected_image) := st in
  let '(img, ref) := p in
  if ref then Return (img, count, corrected_image)
  else if (count <? length corrected_image)%nat
  then Return (ref_imge, S count, <[count := img_sub img ref_imge]> corrected_image)
  else Raise IndexError.

Fixpoint subtraction_loop (ps : list (image * bool)) (st : image * nat * list image)
    : outcome (image * nat * list image) :=
  match ps with
  | [] => Return st
  | p :: ps' =>
      match subtraction_step st p with
      | Return st' => subtraction_loop ps' st'
      | Raise e => Raise e
      end
  end.

(** [img_subtraction_pre(img_arr, is_reference)] for an array of images of
    dtype [dt] with [npix] pixels each. *)
Definition img_subtraction_pre (npix : nat) (img_arr : list image)
    (is_reference : list bool) : outcome (list image) :=
  match is_reference !! 0%nat with
  | None => Raise IndexError
  | Some first =>
      if negb first then Raise ValueError
      else
        match img_arr !! 0%nat with
        | None => Raise IndexError
        | Some ref_imge =>
            let ref_count := length (filter (fun b => b = true) is_reference) in
            let n := (Z.of_nat (length img_arr) - Z.of_nat ref_count)%Z in
            if (n <? 0)%Z then Raise ValueError
            else
              let corrected_image :=
                replicate (Z.to_nat n) (replicate npix (zero dt)) in
              match
                subtraction_loop (zip (drop 1 img_arr) (drop 1 is_reference))
                  (ref_imge, 0%nat, corrected_image)
              with
              | Return (_, _, corrected_image) => Return corrected_image
              | Raise e => Raise e
              end
        end
  end.

End ImgSubtraction.

End Typed.

(** ** Vocabulary of the properties *)

(** The number of arguments of [bin_edges] that are not [None]. *)
Definition num_given (range_min range_max : option Q) (nbins : option Z)
    (step : option Q) : nat :=
  (Nat.b2n (bool_decide (is_Some range_min)) + Nat.b2n (bool_decide (is_Some range_max))
   + Nat.b2n (bool_decide (is_Some nbins)) + Nat.b2n (bool_decide (is_Some step)))%nat.

(** A sequence of numbers is monotonically non-decreasing. *)
Definition nondecreasing (l : list Q) : Prop :=
  forall (i : nat) (x y : Q), l !! i = Some x -> l !! S i = Some y -> x <= y.

(** Row and column of the pixel at position [k] of a row-major flattening of
    an image with [cols] columns. *)
Definition pixel_row (cols k : nat) : nat := (k / cols)%nat.

Definition pixel_col (cols k : nat) : nat := (k mod cols)%nat.

(** The coordinate arrays [X], [Y] give, at every position [k], the
    coordinate of the pixel whose intensity is [I[k]], offset by the
    center: [X[k]] is the row and [Y[k]] the column of that pixel. *)
Definition coordinates_match (img : image) (center : Q * Q) (X Y : list Q) : Prop :=
  forall k : nat, (k < shape0 img * shape1 img)%nat ->
    exists x y : Q,
      X !! k = Some x /\ Y !! k = Some y
      /\ x == inject_Z (Z.of_nat (pixel_row (shape1 img) k)) - fst center
      /\ y == inject_Z (Z.of_nat (pixel_col (shape1 img) k)) - snd center.

(** The same with the other naming of the axes: [X[k]] is the column and
    [Y[k]] the row of the pixel of [I[k]]. *)
Definition coordinates_match_xy (img : image) (center : Q * Q) (X Y : list Q) : Prop :=
  forall k : nat, (k < shape0 img * shape1 img)%nat ->
    exists x y : Q,
      X !! k = Some x /\ Y !! k = Some y
      /\ x == inject_Z (Z.of_nat (pixel_col (shape1 img) k)) - fst center
      /\ y == inject_Z (Z.of_nat (pixel_row (shape1 img) k)) - snd center.

(** [m] keeps the arrays of [base]: run on a store that holds the arrays of
    [base] unchanged, it ends (returning or raising) in a store that still
    does, and a returned value satisfies [Q]. *)
Definition keeps {A : Type} (base : Np.heap) (m : Np.M A) (Q : A -> Prop) : Prop :=
  forall (h h' : Np.heap) (r : outcome A),
    base ⊆ h -> m h = (h', r) ->
    base ⊆ h' /\ match r with Return a => Q a | Raise _ => True end.

(** A reference that names no array of the store. *)
Definition fresh_in (base : Np.heap) (l : Np.loc) : Prop := base !! l = None.

(** The number of measured (non-reference) images before position [i]. *)
Definition measured_before (flags : list bool) (i : nat) : nat :=
  length (filter (fun b => b = false) (take i flags)).

(** The number of reference frames. *)
Definition reference_count (flags : list bool) : nat :=
  length (filter (fun b => b = true) flags).

(** The images the loop of [img_subtraction_pre] writes, one after the
    other, when it runs over the pairs of [imgs] and [flags] starting with
    the reference image [ref]. *)
Fixpoint corrected_from (imgs : list (list Q)) (flags : list bool) (ref : list Q)
    : list (list Q) :=
  match imgs, flags with
  | img :: imgs', f :: flags' =>
      if f then corrected_from imgs' flags' img
      else Np.img_sub img ref :: corrected_from imgs' flags' ref
  | _, _ => []
  end.

(** [out] with the entries from position [pos] on replaced by [new]. *)
Definition overwrite {A : Type} (out : list A) (pos : nat) (new : list A) : list A :=
  take pos out ++ new ++ drop (pos + length new) out.

(** [v] falls in bin [i] of [edges]: the bin is closed on the left and open
    on the right, except the last one, which is closed on the right too. *)
Definition in_bin (edges : list Q) (i : nat) (v : Q) : bool :=
  match edges !! i, edges !! S i with
  | Some lo, Some hi =>
      Qle_bool lo v
      && (if (S (S i) =? length edges)%nat then Qle_bool v hi else negb (Qle_bool hi v))
  | _, _ => false
  end.

(** The sum of [ys] over the samples whose position in [xs] falls in bin [i]. *)
Definition bin_sum (edges : list Q) (i : nat) (xs ys : list Q) : Q :=
  fold_right Qplus 0 (zip_with (fun x y => if in_bin edges i x then y else 0) xs ys).






(** After [self[key] = val] on the dictionary [_dict], which returns
    normally, [self[key]] is the leaf [md_value(value, units)]. *)
Definition stored_as (_dict : gmap string node) (key : string) (val value units : pyval)
    : Prop :=
  exists d' : gmap string node,
    MD_dict_setitem _dict key val = (d', Return tt)
    /\ snd (MD_dict_getitem d' key) = Some (Leaf value units).

(** Two small stores for the examples: five 2-pixel images at reference 0
    with their flags at reference 1; positions at reference 0 with their
    intensities at reference 1. *)
Definition example_images : Np.heap :=
  <[0%nat := Np.ImgArray 2 [[10; 10]; [11; 12]; [13; 14]; [1; 1]; [5; 6]]]>
    (<[1%nat := Np.BoolArray [true; false; false; true; false]]> ∅).

Definition example_samples : Np.heap :=
  <[0%nat := Np.NumArray [0; 1; 2; 3; 4; 4; 1]]>
    (<[1%nat := Np.NumArray [1; 1; 1; 1; 1; 5; 7]]> ∅).



(** A tuple or list with fewer than two items: [val[1]] is out of range. *)
Definition short_sequence (val : pyval) : Prop :=
  exists items : list pyval,
    (val = VTuple items \/ val = VList items) /\ (length items < 2)%nat.

(** The exact value of a double that is a number. *)
Definition value_of (x : float) : option Q :=
  match Prim2SF x with
  | S754_zero _ => Some 0
  | S754_finite s m e =>
      Some ((if s then - inject_Z (Z.pos m) else inject_Z (Z.pos m)) * 2 ^ e)
  | S754_infinity _ | S754_nan => None
  end.

(** The images a loop writes, one after the other, when it runs over the
    pairs of [imgs] and [flags] starting with the reference image [ref] and
    subtracts with [sub]. *)
Fixpoint corrected_with {A : Type} (sub : A -> A -> A) (imgs : list A)
    (flags : list bool) (ref : A) : list A :=
  match imgs, flags with
  | img :: imgs', f :: flags' =>
      if f then corrected_with sub imgs' flags' img
      else sub img ref :: corrected_with sub imgs' flags' ref
  | _, _ => []
  end.



















(** * Properties *)

(** ** Arithmetic on the number model *)

Section Numbers.

Lemma Qle_bool_true (x y : Q) : Qle_bool x y = true <-> x <= y.
Proof. apply Qle_bool_iff. Qed.

Lemma Qle_bool_false (x y : Q) : Qle_bool x y = false <-> y < x.
Proof.
  split; intros H.
  - apply Qnot_le_lt. intros Hle. apply Qle_bool_iff in Hle. congruence.
  - destruct (Qle_bool x y) eqn:E; [|reflexivity].
    apply Qle_bool_iff in E. lra.
Qed.

Lemma inject_Z_succ (i : nat) :
  inject_Z (Z.of_nat (S i)) == inject_Z (Z.of_nat i) + 1.
Proof. rewrite Nat2Z.inj_succ. unfold Z.succ. rewrite inject_Z_plus. reflexivity. Qed.

End Numbers.

(** ** numpy primitives *)

Section Arange.

Lemma length_arange (n : Z) : length (Np.arange n) = Z.to_nat n.
Proof. unfold Np.arange. rewrite length_map. apply length_seq. Qed.

Lemma lookup_arange (n : Z) (i : nat) :
  (i < Z.to_nat n)%nat -> Np.arange n !! i = Some (Z.of_nat i).
Proof.
  intros Hi. unfold Np.arange. rewrite list_lookup_fmap.
  rewrite lookup_seq_lt by exact Hi. reflexivity.
Qed.

Lemma lookup_arange_Some (n : Z) (i : nat) (z : Z) :
  Np.arange n !! i = Some z -> (i < Z.to_nat n)%nat /\ z = Z.of_nat i.
Proof.
  intros H. assert (Hlt : (i < Z.to_nat n)%nat).
  { apply lookup_lt_Some in H. rewrite length_arange in H. exact H. }
  split; [exact Hlt|]. rewrite lookup_arange in H by exact Hlt. congruence.
Qed.

End Arange.

Section Linspace.

Lemma set_last_nonempty (l : list Q) (v : Q) :
  l <> [] -> Np.set_last l v = take (length l - 1) l ++ [v].
Proof.
  intros Hl. destruct l as [|x l]; [congruence|].
  unfold Np.set_last. rewrite removelast_firstn_len.
  replace (Init.Nat.pred (length (x :: l))) with (length (x :: l) - 1)%nat by lia.
  reflexivity.
Qed.

(** [np.linspace(start, stop, n + 1)] for [n > 0]: [n + 1] samples, sample [i]
    at [start + i * (stop - start) / n], the last one [stop] itself. *)
Lemma linspace_spec (start stop : Q) (n : Z) :
  (0 < n)%Z ->
  exists edges : list Q,
    Np.linspace start stop (n + 1) = Return edges
    /\ length edges = S (Z.to_nat n)
    /\ (forall (i : nat) (x : Q), edges !! i = Some x ->
          x == start + inject_Z (Z.of_nat i) * ((stop - start) / inject_Z n))
    /\ last edges = Some stop.
Proof.
  intros Hn. unfold Np.linspace.
  replace (n + 1 - 1)%Z with n by lia.
  destruct (Z.ltb_spec (n + 1) 0) as [?|_]; [lia|].
  destruct (Z.ltb_spec 0 n) as [_|?]; [|lia].
  destruct (Z.ltb_spec 1 (n + 1)) as [_|?]; [|lia].
  set (y := map (fun v => v + start)
              (Np.mul_scalar (Np.arange (n + 1)) ((stop - start) / inject_Z n))).
  assert (Hlen : length y = S (Z.to_nat n)).
  { unfold y, Np.mul_scalar. rewrite !length_map, length_arange.
    rewrite Z2Nat.inj_add by lia. simpl. lia. }
  assert (Hy : y <> []) by (intros E; rewrite E in Hlen; discriminate).
  rewrite set_last_nonempty by exact Hy. rewrite Hlen.
  replace (S (Z.to_nat n) - 1)%nat with (Z.to_nat n) by lia.
  eexists. split; [reflexivity|]. split; [|split].
  - rewrite length_app, length_take, Hlen. simpl. lia.
  - intros i x Hx.
    destruct (decide (i < Z.to_nat n)%nat) as [Hi|Hi].
    + rewrite lookup_app_l in Hx by (rewrite length_take, Hlen; lia).
      rewrite lookup_take_lt in Hx by exact Hi.
      unfold y, Np.mul_scalar in Hx. rewrite !list_lookup_fmap in Hx.
      rewrite lookup_arange in Hx by (rewrite Z2Nat.inj_add by lia; simpl; lia).
      simpl in Hx. injection Hx as <-. ring.
    + assert (Hin : (i < S (Z.to_nat n))%nat).
      { apply lookup_lt_Some in Hx.
        rewrite length_app, length_take, Hlen in Hx. simpl in Hx. lia. }
      assert (i = Z.to_nat n) by lia. subst i.
      rewrite lookup_app_r in Hx by (rewrite length_take, Hlen; lia).
      rewrite length_take, Hlen in Hx.
      replace (Z.to_nat n - Z.to_nat n `min` S (Z.to_nat n))%nat with 0%nat in Hx by lia.
      simpl in Hx. injection Hx as <-.
      rewrite Z2Nat.id by lia.
      assert (Hne : ~ inject_Z n == 0).
      { change 0 with (inject_Z 0). rewrite inject_Z_injective. lia. }
      field. exact Hne.
  - apply last_snoc.
Qed.

(** The samples of [np.linspace] do not decrease when [start <= stop]. *)
Lemma linspace_nondecreasing (start stop : Q) (n : Z) (edges : list Q) :
  (0 < n)%Z -> start <= stop ->
  Np.linspace start stop (n + 1) = Return edges -> nondecreasing edges.
Proof.
  intros Hn Hle Hrun.
  destruct (linspace_spec start stop n Hn) as (es & Hlin & _ & Hsp & _).
  rewrite Hlin in Hrun. injection Hrun as ->.
  intros i x y Hx Hy. rewrite (Hsp _ _ Hx), (Hsp _ _ Hy), inject_Z_succ.
  assert (Hd : 0 <= (stop - start) / inject_Z n).
  { apply Qle_shift_div_l.
    - change 0 with (inject_Z 0). rewrite <- Zlt_Qlt. exact Hn.
    - lra. }
  nra.
Qed.

End Linspace.

(** ** bin_edges *)

Section BinEdges.

(** C3: a call in which the number of arguments that are not [None] is not
    exactly three (none, one, two or all four are given) raises [ValueError]
    and returns no edges. *)
Theorem bin_edges_wrong_arg_count (range_min range_max : option Q)
    (nbins : option Z) (step : option Q) :
  num_given range_min range_max nbins step <> 3%nat ->
  bin_edges range_min range_max nbins step = ([], Raise ValueError).
Proof.
  intros H.
  destruct range_min, range_max, nbins, step; cbn in H;
    solve [ reflexivity | exfalso; apply H; reflexivity ].
Qed.

Lemma bin_edges_wrong_arg_count_witness :
  bin_edges (Some 0) (Some 10) None None = ([], Raise ValueError)
  /\ bin_edges (Some 0) (Some 10) (Some 5%Z) (Some 2) = ([], Raise ValueError).
Proof.
  split.
  - apply (bin_edges_wrong_arg_count (Some 0) (Some 10) None None). cbn. lia.
  - apply (bin_edges_wrong_arg_count (Some 0) (Some 10) (Some 5%Z) (Some 2)). cbn. lia.
Defined.



(** The edges [range_min + i * step] for [i] in [[0, nbins]]. *)
Lemma step_edges_unfold (range_min step : Q) (n : Z) :
  Np.scalar_add range_min (Np.mul_scalar (Np.arange n) step)
  = map (fun i : Z => range_min + inject_Z i * step) (Np.arange n).
Proof. unfold Np.scalar_add, Np.mul_scalar. apply map_map. Qed.

Lemma floor_quotient_nonneg (range_min range_max step : Q) :
  0 < step -> step <= range_max - range_min ->
  (1 <= Qfloor ((range_max - range_min) / step))%Z.
Proof.
  intros Hs Hle. change 1%Z with (Qfloor 1). apply Qfloor_resp_le.
  apply Qle_shift_div_l; [exact Hs|]. lra.
Qed.

Lemma last_arange (n : Z) : (0 < n)%Z -> last (Np.arange n) = Some (n - 1)%Z.
Proof.
  intros Hn. rewrite last_lookup, length_arange.
  rewrite lookup_arange by lia. f_equal. lia.
Qed.

(** In exact arithmetic the last computed edge never exceeds [range_max]. *)
Lemma step_edges_top (range_min range_max step : Q) :
  0 < step -> step <= range_max - range_min ->
  range_min + inject_Z (Qfloor ((range_max - range_min) / step)) * step <= range_max.
Proof.
  intros Hs Hle.
  pose proof (Qfloor_le ((range_max - range_min) / step)) as Hf.
  assert (H : inject_Z (Qfloor ((range_max - range_min) / step)) * step
              <= (range_max - range_min) / step * step).
  { apply Qmult_le_compat_r; [exact Hf|lra]. }
  assert (E : (range_max - range_min) / step * step == range_max - range_min).
  { field. lra. }
  rewrite E in H. lra.
Qed.

(** The run of the (range_min, range_max, step) case. *)
Lemma bin_edges_min_max_step_run (range_min range_max step : Q) :
  range_min < range_max -> 0 < step -> step <= range_max - range_min ->
  let nbins := Qfloor ((range_max - range_min) / step) in
  let full := map (fun i : Z => range_min + inject_Z i * step) (Np.arange (nbins + 1)) in
  exists (log : list log_record) (top : Q),
    last full = Some top
    /\ bin_edges (Some range_min) (Some range_max) None (Some step)
       = (log, Return (if Qlt_le_dec range_max top then removelast full else full))
    /\ (log = [] \/ log = [DebugTruncated range_min range_max step (range_max - top)]).
Proof.
  intros Hlt Hs Hle nbins full.
  pose proof (floor_quotient_nonneg range_min range_max step Hs Hle) as Hnb.
  fold nbins in Hnb.
  set (top := range_min + inject_Z nbins * step).
  assert (Htop : last full = Some top).
  { unfold full. change (map ?f ?l) with (f <$> l). rewrite fmap_last.
    rewrite last_arange by lia. simpl. unfold top.
    replace (nbins + 1 - 1)%Z with nbins by lia. reflexivity. }
  exists (if Qle_bool top range_max
             && negb (Qle_bool (range_max - top) ((1 # 10000000000) * step))
          then [DebugTruncated range_min range_max step (range_max - top)]
          else []), top.
  split; [exact Htop|]. split.
  - unfold bin_edges.
    change (negb (sum_bools _ =? 3)%Z) with false. cbn match.
    assert (E1 : Qle_bool range_max range_min = false)
      by (apply Qle_bool_false; exact Hlt).
    assert (E2 : Qle_bool step (range_max - range_min) = true)
      by (apply Qle_bool_true; exact Hle).
    rewrite E1, E2. cbn [negb]. unfold floordiv.
    assert (E3 : Qeq_bool step 0 = false).
    { destruct (Qeq_bool step 0) eqn:E; [|reflexivity].
      apply Qeq_bool_eq in E. lra. }
    rewrite E3. fold nbins. rewrite step_edges_unfold. fold full.
    unfold index_last. rewrite Htop.
    destruct (Qle_bool top range_max) eqn:E4; cbn [negb andb].
    + apply Qle_bool_true in E4.
      destruct (Qlt_le_dec range_max top) as [Hc|_]; [lra|].
      destruct (Qle_bool (range_max - top) ((1 # 10000000000) * step));
        reflexivity.
    + apply Qle_bool_false in E4.
      destruct (Qlt_le_dec range_max top) as [_|Hc]; [|lra].
      reflexivity.
  - destruct (_ && _); [right|left]; reflexivity.
Qed.


Lemma rev_lookup_arange (n : Z) (i : nat) (z : Z) :
  rev (Np.arange n) !! i = Some z ->
  (i < Z.to_nat n)%nat /\ z = Z.of_nat (Z.to_nat n - S i).
Proof.
  rewrite rev_alt. change (rev_append (Np.arange n) []) with (reverse (Np.arange n)).
  rewrite reverse_lookup_Some, length_arange. intros [H Hi].
  split; [exact Hi|]. apply lookup_arange_Some in H. tauto.
Qed.

Lemma nondecreasing_removelast (l : list Q) :
  nondecreasing l -> nondecreasing (removelast l).
Proof.
  intros Hl i x y. rewrite removelast_firstn_len.
  rewrite !lookup_take_Some. intros [Hx _] [Hy _]. exact (Hl i x y Hx Hy).
Qed.

Lemma nondecreasing_step_edges (range_min step : Q) (n : Z) :
  0 <= step ->
  nondecreasing (map (fun i : Z => range_min + inject_Z i * step) (Np.arange n)).
Proof.
  intros Hs i x y. change (map ?f ?l) with (f <$> l).
  rewrite !list_lookup_fmap.
  destruct (Np.arange n !! i) as [zi|] eqn:Ei; [|discriminate].
  destruct (Np.arange n !! S i) as [zs|] eqn:Es; [|discriminate].
  apply lookup_arange_Some in Ei as [_ ->].
  apply lookup_arange_Some in Es as [_ ->].
  simpl. intros [= <-] [= <-]. rewrite inject_Z_succ. nra.
Qed.

(** Whenever [step] is omitted or not negative, the edges a call returns are
    monotonically non-decreasing. *)
Lemma bin_edges_nondecreasing (range_min range_max : option Q) (nbins : option Z)
    (step : option Q) (log : list log_record) (edges : list Q) :
  (forall st : Q, step = Some st -> 0 <= st) ->
  bin_edges range_min range_max nbins step = (log, Return edges) ->
  nondecreasing edges.
Proof.
  intros Hstep.
  destruct range_min as [lo|], range_max as [hi|], nbins as [n|], step as [st|];
    unfold bin_edges;
    try (change (negb (sum_bools _ =? 3)%Z) with true; cbn match; discriminate);
    change (negb (sum_bools _ =? 3)%Z) with false; cbn match.
  - (* range_min, range_max, nbins *)
    destruct (Qle_bool hi lo) eqn:E1; [discriminate|].
    apply Qle_bool_false in E1.
    destruct (Z.leb_spec n 0) as [?|Hn]; [discriminate|].
    unfold silent. intros [= _ Hlin].
    apply (linspace_nondecreasing lo hi n edges Hn); [lra|exact Hlin].
  - (* range_min, range_max, step *)
    specialize (Hstep st eq_refl).
    destruct (Qle_bool hi lo); [discriminate|].
    destruct (Qle_bool st (hi - lo)); cbn [negb]; [|discriminate].
    destruct (floordiv (hi - lo) st) as [nb|e]; [|discriminate].
    rewrite step_edges_unfold.
    destruct (index_last _) as [top|e]; [|discriminate].
    pose proof (nondecreasing_step_edges lo st (nb + 1) Hstep) as Hmono.
    destruct (Qle_bool top hi); cbn [negb].
    + destruct (Qle_bool _ _); cbn [negb]; intros [= _ <-]; exact Hmono.
    + intros [= _ <-]. apply nondecreasing_removelast. exact Hmono.
  - (* range_min, nbins, step *)
    specialize (Hstep st eq_refl).
    destruct (n <=? 0)%Z; [discriminate|].
    rewrite step_edges_unfold. intros [= _ <-].
    apply nondecreasing_step_edges. exact Hstep.
  - (* range_max, nbins, step *)
    specialize (Hstep st eq_refl).
    destruct (n <=? 0)%Z; [discriminate|].
    intros [= _ <-]. intros i x y.
    unfold Np.scalar_sub, Np.mul_scalar. rewrite map_map.
    change (map ?f ?l) with (f <$> l). rewrite !list_lookup_fmap.
    destruct (rev (Np.arange (n + 1)) !! i) as [zi|] eqn:Ei; [|discriminate].
    destruct (rev (Np.arange (n + 1)) !! S i) as [zs|] eqn:Es; [|discriminate].
    apply rev_lookup_arange in Ei as [Hi ->].
    apply rev_lookup_arange in Es as [Hsi ->].
    simpl. intros [= <-] [= <-].
    replace (Z.to_nat (n + 1) - S i)%nat with (S (Z.to_nat (n + 1) - S (S i))) by lia.
    rewrite inject_Z_succ. nra.
Qed.

(** C6 at a negative [step]: [bin_edges(range_min=0, nbins=3, step=-1)]
    returns [0, -1, -2, -3], which decreases (and lies below [range_min]);
    the returned edges are not monotonically non-decreasing. *)
Theorem bin_edges_negative_step_decreasing :
  exists edges : list Q,
    bin_edges (Some 0) None (Some 3%Z) (Some (-1)) = ([], Return edges)
    /\ Forall2 Qeq edges [0; -1; -2; -3]
    /\ ~ nondecreasing edges.
Proof.
  eexists. split; [vm_compute; reflexivity|]. split.
  - repeat constructor.
  - intros H. specialize (H 0%nat _ _ eq_refl eq_refl). vm_compute in H.
    apply H. reflexivity.
Qed.

End BinEdges.

(** ** detector2D_to_1D *)

Section Detector.

Lemma lookup_concat_blocks {A B : Type} (f : A -> list B) (l : list A) (n k : nat) :
  (0 < n)%nat -> (forall a, length (f a) = n) ->
  concat (map f l) !! k = l !! (k / n)%nat ≫= (fun a => f a !! (k mod n)%nat).
Proof.
  intros Hn Hf. revert k. induction l as [|a l IH]; intros k.
  - reflexivity.
  - simpl. destruct (decide (k < n)%nat) as [Hk|Hk].
    + rewrite lookup_app_l by (rewrite Hf; exact Hk).
      rewrite Nat.div_small, Nat.mod_small by exact Hk. reflexivity.
    + rewrite lookup_app_r by (rewrite Hf; lia). rewrite Hf, IH.
      assert (Hd : (k / n = S ((k - n) / n))%nat).
      { replace k with ((k - n) + 1 * n)%nat at 1 by lia.
        rewrite Nat.div_add by lia. lia. }
      assert (Hm : (k mod n = (k - n) mod n)%nat).
      { replace k with ((k - n) + 1 * n)%nat at 1 by lia.
        apply Nat.Div0.mod_add. }
      rewrite Hd, Hm. reflexivity.
Qed.

Lemma length_concat_blocks {A B : Type} (f : A -> list B) (l : list A) (n : nat) :
  (forall a, length (f a) = n) -> length (concat (map f l)) = (length l * n)%nat.
Proof.
  intros Hf. induction l as [|a l IH]; simpl; [reflexivity|].
  rewrite length_app, Hf, IH. reflexivity.
Qed.

(** What the function computes: the three arrays have [rows * cols] entries
    when [img] has, [I] is the row-major flattening of the image, and at
    position [k] the coordinate arrays hold [k mod rows - center[0]] and
    [k / rows - center[1]]: the grids have shape [(cols, rows)]. *)
Lemma detector2D_to_1D_computes (img : image) (center : Q * Q) :
  exists X Y : list Q,
    detector2D_to_1D img center = (X, Y, pixels img)
    /\ length X = (shape0 img * shape1 img)%nat
    /\ length Y = (shape0 img * shape1 img)%nat
    /\ forall k : nat, (k < shape0 img * shape1 img)%nat ->
         X !! k = Some (inject_Z (Z.of_nat (k mod shape0 img)) - fst center)
         /\ Y !! k = Some (inject_Z (Z.of_nat (k / shape0 img)) - snd center).
Proof.
  destruct img as [rows cols pix], center as [c0 c1]. simpl.
  unfold detector2D_to_1D, Np.meshgrid, Np.ravel. simpl.
  set (xs := Np.sub_scalar (Np.arange (Z.of_nat rows)) c0).
  set (ys := Np.sub_scalar (Np.arange (Z.of_nat cols)) c1).
  assert (Hxs : length xs = rows).
  { unfold xs, Np.sub_scalar. rewrite length_map, length_arange. lia. }
  assert (Hys : length ys = cols).
  { unfold ys, Np.sub_scalar. rewrite length_map, length_arange. lia. }
  eexists _, _. split; [reflexivity|]. split; [|split].
  - rewrite (length_concat_blocks _ ys rows) by (intros; exact Hxs). lia.
  - rewrite (length_concat_blocks _ ys rows) by (intros; rewrite length_map; exact Hxs).
    lia.
  - intros k Hk.
    assert (Hrows : (0 < rows)%nat) by lia.
    assert (Hdiv : (k / rows < cols)%nat) by (apply Nat.Div0.div_lt_upper_bound; lia).
    assert (Hmod : (k mod rows < rows)%nat) by (apply Nat.mod_upper_bound; lia).
    assert (Hy : ys !! (k / rows)%nat
                 = Some (inject_Z (Z.of_nat (k / rows)) - c1)).
    { unfold ys, Np.sub_scalar. change (map ?f ?l) with (f <$> l).
      rewrite list_lookup_fmap, lookup_arange by lia. reflexivity. }
    assert (Hx : xs !! (k mod rows)%nat
                 = Some (inject_Z (Z.of_nat (k mod rows)) - c0)).
    { unfold xs, Np.sub_scalar. change (map ?f ?l) with (f <$> l).
      rewrite list_lookup_fmap, lookup_arange by lia. reflexivity. }
    split.
    + rewrite (lookup_concat_blocks _ ys rows k Hrows) by (intros; exact Hxs).
      rewrite Hy. simpl. exact Hx.
    + rewrite (lookup_concat_blocks _ ys rows k Hrows)
        by (intros; rewrite length_map; exact Hxs).
      rewrite Hy. simpl. change (map ?f ?l) with (f <$> l).
      rewrite list_lookup_fmap, Hx. reflexivity.
Qed.

(** C4 on a 2 x 3 image with center (0, 0): the three arrays have 6 entries
    and [I] is the row-major flattening, but [X] is [0, 1, 0, 1, 0, 1] and
    [Y] is [0, 0, 1, 1, 2, 2]; the pixel of [I[1]] is at row 0, column 1,
    while [(X[1], Y[1])] is (1, 0), and the pixel of [I[2]] is at row 0,
    column 2, while [(X[2], Y[2])] is (0, 1).  The coordinate arrays do not
    give the coordinates of the pixels of [I], whichever of [X] and [Y] is
    taken for the row. *)
Theorem detector2D_to_1D_coordinates_mismatch :
  exists X Y I : list Q,
    detector2D_to_1D (Image 2 3 [10; 11; 12; 13; 14; 15]) (0, 0) = (X, Y, I)
    /\ I = [10; 11; 12; 13; 14; 15]
    /\ Forall2 Qeq X [0; 1; 0; 1; 0; 1]
    /\ Forall2 Qeq Y [0; 0; 1; 1; 2; 2]
    /\ ~ coordinates_match (Image 2 3 [10; 11; 12; 13; 14; 15]) (0, 0) X Y
    /\ ~ coordinates_match_xy (Image 2 3 [10; 11; 12; 13; 14; 15]) (0, 0) X Y.
Proof.
  eexists _, _, _. split; [vm_compute; reflexivity|].
  split; [reflexivity|]. split; [repeat constructor|]. split; [repeat constructor|].
  split.
  - intros H. destruct (H 1%nat) as (x & y & Hx & Hy & Ex & Ey).
    + simpl. lia.
    + injection Hx as <-. vm_compute in Ex. discriminate.
  - intros H. destruct (H 2%nat) as (x & y & Hx & Hy & Ex & Ey).
    + simpl. lia.
    + injection Hx as <-. vm_compute in Ex. discriminate.
Qed.

End Detector.

(** ** img_subtraction_pre *)

Section ImgSubtraction.

Lemma bind_run {A B : Type} (m : Np.M A) (k : A -> Np.M B) (h h' : Np.heap) (a : A) :
  m h = (h', Return a) -> Np.bind m k h = k a h'.
Proof. intros H. unfold Np.bind. rewrite H. reflexivity. Qed.

Lemma bind_bind_run {A B C : Type} (m : Np.M A) (k1 : A -> Np.M B) (k2 : B -> Np.M C)
    (h h' : Np.heap) (a : A) :
  m h = (h', Return a) -> Np.bind (Np.bind m k1) k2 h = Np.bind (k1 a) k2 h'.
Proof. intros H. unfold Np.bind. rewrite H. reflexivity. Qed.

Lemma load_imgs_run (h : Np.heap) (l : Np.loc) (npix : nat) (imgs : list (list Q)) :
  h !! l = Some (Np.ImgArray npix imgs) ->
  Np.load_imgs l h = (h, Return (npix, imgs)).
Proof. intros H. unfold Np.load_imgs, Np.bind, Np.load. rewrite H. reflexivity. Qed.

Lemma load_flags_run (h : Np.heap) (l : Np.loc) (flags : list bool) :
  h !! l = Some (Np.BoolArray flags) -> Np.load_flags l h = (h, Return flags).
Proof. intros H. unfold Np.load_flags, Np.bind, Np.load. rewrite H. reflexivity. Qed.

Lemma load_nums_run (h : Np.heap) (l : Np.loc) (xs : list Q) :
  h !! l = Some (Np.NumArray xs) -> Np.load_nums l h = (h, Return xs).
Proof. intros H. unfold Np.load_nums, Np.bind, Np.load. rewrite H. reflexivity. Qed.

Lemma get_img_run (h : Np.heap) (l : Np.loc) (npix : nat) (imgs : list (list Q))
    (i : nat) (img : list Q) :
  h !! l = Some (Np.ImgArray npix imgs) -> imgs !! i = Some img ->
  Np.get_img l i h = (h, Return img).
Proof.
  intros H Hi. unfold Np.get_img. rewrite (bind_run _ _ _ _ _ (load_imgs_run _ _ _ _ H)).
  unfold Np.lift, Np.index. simpl. rewrite Hi. reflexivity.
Qed.

Lemma get_flag_run (h : Np.heap) (l : Np.loc) (flags : list bool) (i : nat) (f : bool) :
  h !! l = Some (Np.BoolArray flags) -> flags !! i = Some f ->
  Np.get_flag l i h = (h, Return f).
Proof.
  intros H Hi. unfold Np.get_flag. rewrite (bind_run _ _ _ _ _ (load_flags_run _ _ _ H)).
  unfold Np.lift, Np.index. rewrite Hi. reflexivity.
Qed.

Lemma set_img_run (h : Np.heap) (l : Np.loc) (npix : nat) (out : list (list Q))
    (i : nat) (img : list Q) :
  h !! l = Some (Np.ImgArray npix out) -> (i < length out)%nat ->
  Np.set_img l i img h = (<[l := Np.ImgArray npix (<[i := img]> out)]> h, Return tt).
Proof.
  intros H Hi. unfold Np.set_img. rewrite (bind_run _ _ _ _ _ (load_imgs_run _ _ _ _ H)).
  simpl. destruct (Nat.ltb_spec i (length out)) as [_|?]; [|lia]. reflexivity.
Qed.

Lemma overwrite_nil {A : Type} (out : list A) (pos : nat) : overwrite out pos [] = out.
Proof. unfold overwrite. simpl. rewrite Nat.add_0_r. apply take_drop. Qed.

Lemma overwrite_insert {A : Type} (out : list A) (pos : nat) (v : A) (rest : list A) :
  (pos < length out)%nat ->
  overwrite (<[pos := v]> out) (S pos) rest = overwrite out pos (v :: rest).
Proof.
  unfold overwrite. revert out. induction pos as [|pos IH]; intros [|x out] Hlen;
    simpl in Hlen; try lia.
  - reflexivity.
  - specialize (IH out ltac:(lia)). simpl in *. f_equal. exact IH.
Qed.

Lemma overwrite_all {A : Type} (out new : list A) :
  length new = length out -> overwrite out 0 new = new.
Proof.
  intros H. unfold overwrite. simpl. rewrite H, drop_all. apply app_nil_r.
Qed.

Lemma corrected_from_length (imgs : list (list Q)) (flags : list bool) (ref : list Q) :
  length flags = length imgs ->
  length (corrected_from imgs flags ref) = measured_before flags (length flags).
Proof.
  unfold measured_before. rewrite firstn_all.
  revert flags ref. induction imgs as [|img imgs IH]; intros [|f flags] ref Hlen;
    simpl in Hlen; try lia; [reflexivity|].
  simpl. destruct f.
  - rewrite filter_cons_False by discriminate. apply IH. lia.
  - rewrite filter_cons_True by reflexivity. simpl. f_equal. apply IH. lia.
Qed.

Lemma measured_plus_reference (flags : list bool) :
  (measured_before flags (length flags) + reference_count flags)%nat = length flags.
Proof.
  unfold measured_before, reference_count. rewrite firstn_all.
  induction flags as [|[] flags IH]; [reflexivity| |].
  - rewrite filter_cons_False by discriminate. rewrite filter_cons_True by reflexivity.
    simpl. lia.
  - rewrite filter_cons_True by reflexivity. rewrite filter_cons_False by discriminate.
    simpl. lia.
Qed.

Lemma measured_before_cons (f : bool) (flags : list bool) (i : nat) :
  measured_before (f :: flags) (S i)
  = ((if f then 0 else 1) + measured_before flags i)%nat.
Proof.
  unfold measured_before. simpl. destruct f.
  - rewrite filter_cons_False by discriminate. reflexivity.
  - rewrite filter_cons_True by reflexivity. reflexivity.
Qed.

(** Position by position: the measured image at position [i] comes out at
    position [measured_before flags i], minus the nearest reference image
    before it, or minus [ref] when no reference image comes before it. *)
Lemma corrected_from_lookup (imgs : list (list Q)) (flags : list bool) (ref : list Q)
    (i : nat) (img : list Q) :
  imgs !! i = Some img -> flags !! i = Some false ->
  exists sub : list Q,
    corrected_from imgs flags ref !! measured_before flags i = Some (Np.img_sub img sub)
    /\ ((exists r : nat,
           (r < i)%nat /\ flags !! r = Some true
           /\ (forall r' : nat, (r < r' < i)%nat -> flags !! r' = Some false)
           /\ imgs !! r = Some sub)
        \/ ((forall r' : nat, (r' < i)%nat -> flags !! r' = Some false) /\ sub = ref)).
Proof.
  revert flags ref i. induction imgs as [|im imgs IH]; intros [|f flags] ref i Hi Hf;
    try discriminate.
  destruct i as [|i].
  - simpl in Hi, Hf. injection Hi as ->. injection Hf as ->.
    exists ref. split; [reflexivity|]. right. split; [intros r' Hr'; lia|reflexivity].
  - simpl in Hi, Hf. rewrite measured_before_cons.
    destruct f; simpl.
    + destruct (IH flags im i Hi Hf) as (sub & Hsub & Hcase).
      exists sub. split; [exact Hsub|]. left.
      destruct Hcase as [(r & Hr & Hfr & Hbetween & Hir)|[Hall ->]].
      * exists (S r). split; [lia|]. split; [exact Hfr|]. split; [|exact Hir].
        intros [|r'] Hr'; [lia|]. simpl. apply Hbetween. lia.
      * exists 0%nat. split; [lia|]. split; [reflexivity|]. split; [|reflexivity].
        intros [|r'] Hr'; [lia|]. simpl. apply Hall. lia.
    + destruct (IH flags ref i Hi Hf) as (sub & Hsub & Hcase).
      exists sub. split; [exact Hsub|].
      destruct Hcase as [(r & Hr & Hfr & Hbetween & Hir)|[Hall ->]].
      * left. exists (S r). split; [lia|]. split; [exact Hfr|]. split; [|exact Hir].
        intros [|r'] Hr'; [lia|]. simpl. apply Hbetween. lia.
      * right. split; [|reflexivity].
        intros [|r'] Hr'; [reflexivity|]. simpl. apply Hall. lia.
Qed.

Section Loop.

Context (h0 : Np.heap) (img_arr is_reference lc : Np.loc) (npix : nat)
  (imgs : list (list Q)) (flags : list bool).
Hypothesis Himgs : h0 !! img_arr = Some (Np.ImgArray npix imgs).
Hypothesis Hflags : h0 !! is_reference = Some (Np.BoolArray flags).
Hypothesis Hlc : h0 !! lc = None.
Hypothesis Hlen : length flags = length imgs.

(** The loop from position [start] on, with [ref_imge] the position [r] and
    [count] results written so far into the array [out] at [lc]. *)
Lemma subtraction_loop_run (len start r : nat) (refimg : list Q) (count : nat)
    (out : list (list Q)) :
  (start + len)%nat = length imgs ->
  imgs !! r = Some refimg ->
  (count + length (corrected_from (drop start imgs) (drop start flags) refimg)
   <= length out)%nat ->
  exists st' : nat * nat,
    Np.for_each (seq start len) (subtraction_step img_arr is_reference lc) (r, count)
      (<[lc := Np.ImgArray npix out]> h0)
    = (<[lc := Np.ImgArray npix
                 (overwrite out count
                    (corrected_from (drop start imgs) (drop start flags) refimg))]> h0,
       Return st').
Proof.
  assert (Hne1 : lc <> img_arr) by (intros ->; congruence).
  assert (Hne2 : lc <> is_reference) by (intros ->; congruence).
  revert start r refimg count out.
  induction len as [|len IH]; intros start r refimg count out Hstart Hr Hroom.
  - rewrite Nat.add_0_r in Hstart. subst start.
    rewrite drop_all. simpl. rewrite overwrite_nil.
    eexists. reflexivity.
  - assert (Hsi : (start < length imgs)%nat) by lia.
    destruct (lookup_lt_is_Some_2 imgs start Hsi) as [img Himg].
    assert (Hsf : (start < length flags)%nat) by lia.
    destruct (lookup_lt_is_Some_2 flags start Hsf) as [f Hf].
    rewrite (drop_S _ _ _ Himg), (drop_S _ _ _ Hf) in Hroom |- *.
    cbn [seq Np.for_each]. unfold subtraction_step at 1. cbv beta iota.
    set (h := <[lc := Np.ImgArray npix out]> h0).
    assert (Hh_imgs : h !! img_arr = Some (Np.ImgArray npix imgs)).
    { unfold h. rewrite lookup_insert_ne by exact Hne1. exact Himgs. }
    assert (Hh_flags : h !! is_reference = Some (Np.BoolArray flags)).
    { unfold h. rewrite lookup_insert_ne by exact Hne2. exact Hflags. }
    assert (Hh_lc : h !! lc = Some (Np.ImgArray npix out)).
    { unfold h. apply lookup_insert_eq. }
    rewrite (bind_bind_run _ _ _ _ _ _ (get_img_run _ _ _ _ _ _ Hh_imgs Himg)).
    rewrite (bind_bind_run _ _ _ _ _ _ (get_flag_run _ _ _ _ _ Hh_flags Hf)).
    destruct f; cbn [corrected_from] in Hroom |- *.
    + rewrite (bind_run _ _ h h (start, count) eq_refl). unfold h.
      apply (IH (S start) start img count out); [lia|exact Himg|exact Hroom].
    + simpl in Hroom.
      rewrite (bind_bind_run _ _ _ _ _ _ (get_img_run _ _ _ _ _ _ Hh_imgs Hr)).
      rewrite (bind_bind_run _ _ _ _ _ _
                 (set_img_run _ _ _ _ count (Np.img_sub img refimg) Hh_lc
                    ltac:(lia))).
      rewrite (bind_run _ _ _ _ (r, S count) eq_refl).
      unfold h. rewrite insert_insert_eq.
      rewrite <- overwrite_insert by lia.
      apply (IH (S start) r refimg (S count)); [lia|exact Hr|].
      rewrite length_insert. lia.
Qed.

End Loop.

Lemma sum_flags_run (h : Np.heap) (l : Np.loc) (flags : list bool) :
  h !! l = Some (Np.BoolArray flags) ->
  Np.sum_flags l h = (h, Return (reference_count flags)).
Proof.
  intros H. unfold Np.sum_flags. rewrite (bind_run _ _ _ _ _ (load_flags_run _ _ _ H)).
  reflexivity.
Qed.

(** The whole call on a store that holds the images and the flags, the
    first flag being true. *)
Lemma img_subtraction_pre_run (h : Np.heap) (img_arr is_reference : Np.loc)
    (npix : nat) (img0 : list Q) (imgs : list (list Q)) (flags : list bool) :
  h !! img_arr = Some (Np.ImgArray npix (img0 :: imgs)) ->
  h !! is_reference = Some (Np.BoolArray (true :: flags)) ->
  length flags = length imgs ->
  img_subtraction_pre img_arr is_reference h
  = (<[fresh (dom h) := Np.ImgArray npix (corrected_from imgs flags img0)]> h,
     Return (fresh (dom h))).
Proof.
  intros Himgs Hflags Hlen. unfold img_subtraction_pre.
  rewrite (bind_run _ _ _ _ _ (get_flag_run _ _ _ 0 true Hflags eq_refl)).
  cbn [negb].
  rewrite (bind_run _ _ _ _ _ (get_img_run _ _ _ _ 0 img0 Himgs eq_refl)).
  rewrite (bind_run _ _ _ _ _ (sum_flags_run _ _ _ Hflags)).
  rewrite (bind_run _ _ _ _ _ (load_imgs_run _ _ _ _ Himgs)).
  rewrite (bind_run _ _ _ _ _ (load_flags_run _ _ _ Hflags)).
  cbn [fst snd].
  pose proof (measured_plus_reference flags) as Hcount.
  pose proof (corrected_from_length imgs flags img0 Hlen) as Hout.
  assert (Href : reference_count (true :: flags) = S (reference_count flags)).
  { unfold reference_count. rewrite filter_cons_True by reflexivity. reflexivity. }
  set (n := (Z.of_nat (length (img0 :: imgs))
             - Z.of_nat (reference_count (true :: flags)))%Z).
  assert (Hn : Z.to_nat n = measured_before flags (length flags)).
  { unfold n. rewrite Href. simpl length. lia. }
  assert (Hzeros : Np.zeros n npix h
                   = (<[fresh (dom h) :=
                          Np.ImgArray npix (replicate (Z.to_nat n) (replicate npix 0))]> h,
                      Return (fresh (dom h)))).
  { unfold Np.zeros. destruct (Z.ltb_spec n 0) as [Hneg|_]; [|reflexivity].
    unfold n in Hneg. rewrite Href in Hneg. simpl length in Hneg. lia. }
  rewrite (bind_run _ _ _ _ _ Hzeros).
  assert (Hfresh : h !! fresh (dom h) = None).
  { apply not_elem_of_dom. apply is_fresh. }
  replace (Nat.min (length (img0 :: imgs) - 1) (length (true :: flags) - 1))
    with (length imgs) by (simpl; lia).
  destruct (subtraction_loop_run h img_arr is_reference (fresh (dom h)) npix
              (img0 :: imgs) (true :: flags) Himgs Hflags Hfresh
              ltac:(simpl; lia) (length imgs) 1 0 img0 0
              (replicate (Z.to_nat n) (replicate npix 0)))
    as [st' Hloop].
  - simpl. lia.
  - reflexivity.
  - change (drop 1 (img0 :: imgs)) with imgs.
    change (drop 1 (true :: flags)) with flags.
    rewrite length_replicate, Hout, Hn. lia.
  - rewrite (bind_run _ _ _ _ _ Hloop).
    change (drop 1 (img0 :: imgs)) with imgs.
    change (drop 1 (true :: flags)) with flags.
    rewrite overwrite_all by (rewrite length_replicate, Hout, Hn; reflexivity).
    reflexivity.
Qed.

End ImgSubtraction.

(** ** np.histogram and bin_1D *)

Section Histogram.

(** The difference of two cumulative weights is the weight in between. *)
Lemma cum_weight_between (a w : list Q) (inclusive : bool) (lo hi : Q) :
  lo <= hi ->
  Np.cum_weight a w inclusive hi - Np.cum_weight a w false lo
  == fold_right Qplus 0
       (zip_with (fun aj wj =>
          if Qle_bool lo aj
             && (if inclusive then Qle_bool aj hi else negb (Qle_bool hi aj))
          then wj else 0) a w).
Proof.
  intros Hle. unfold Np.cum_weight. revert w.
  induction a as [|aj a IH]; intros [|wj w]; simpl; try (ring_simplify; reflexivity).
  specialize (IH w). rewrite <- IH.
  destruct (Qle_bool lo aj) eqn:E1; [apply Qle_bool_true in E1|apply Qle_bool_false in E1];
    destruct inclusive; simpl.
  - destruct (Qle_bool aj hi) eqn:E2; ring.
  - destruct (Qle_bool hi aj) eqn:E2; simpl; ring.
  - destruct (Qle_bool aj hi) eqn:E2; [ring|apply Qle_bool_false in E2; lra].
  - destruct (Qle_bool hi aj) eqn:E2; [apply Qle_bool_true in E2; lra|simpl; ring].
Qed.

Lemma lookup_search_sorted (a w bins : list Q) (i : nat) (e : Q) :
  bins !! i = Some e ->
  Np.search_sorted_inclusive a w bins !! i
  = Some (Np.cum_weight a w (S i =? length bins)%nat e).
Proof.
  intros He. unfold Np.search_sorted_inclusive.
  assert (Hi : (i < length bins)%nat) by (eapply lookup_lt_Some; exact He).
  rewrite last_lookup.
  destruct (bins !! Init.Nat.pred (length bins)) as [top|] eqn:Etop.
  2:{ apply lookup_ge_None in Etop. lia. }
  rewrite removelast_firstn_len.
  destruct (Nat.eqb_spec (S i) (length bins)) as [Heq|Hne].
  - rewrite lookup_app_r by (rewrite length_map, length_take; lia).
    rewrite length_map, length_take.
    replace (i - Init.Nat.pred (length bins) `min` length bins)%nat with 0%nat by lia.
    replace (Init.Nat.pred (length bins)) with i in Etop by lia.
    simpl. congruence.
  - rewrite lookup_app_l by (rewrite length_map, length_take; lia).
    change (map ?f ?l) with (f <$> l). rewrite list_lookup_fmap.
    rewrite lookup_take_lt by lia. rewrite He. reflexivity.
Qed.

Lemma length_search_sorted (a w bins : list Q) :
  length (Np.search_sorted_inclusive a w bins) = length bins.
Proof.
  unfold Np.search_sorted_inclusive. rewrite last_lookup.
  destruct (bins !! Init.Nat.pred (length bins)) as [top|] eqn:Etop.
  - apply lookup_lt_Some in Etop.
    rewrite length_app, length_map, removelast_firstn_len, length_take. simpl. lia.
  - apply lookup_ge_None in Etop. destruct bins; simpl in *; [reflexivity|lia].
Qed.

Lemma length_diff (l : list Q) : length (Np.diff l) = (length l - 1)%nat.
Proof.
  unfold Np.diff. rewrite length_zip_with. destruct l; [reflexivity|].
  cbn [tail length]. lia.
Qed.

Lemma lookup_diff (l : list Q) (i : nat) (v : Q) :
  Np.diff l !! i = Some v ->
  exists lo hi : Q, l !! i = Some lo /\ l !! S i = Some hi /\ v = hi - lo.
Proof.
  unfold Np.diff. rewrite lookup_zip_with_Some.
  intros (lo & hi & -> & Hlo & Hhi). rewrite lookup_tail in Hhi.
  exists lo, hi. auto.
Qed.

Lemma any_decreasing_false (bins : list Q) :
  nondecreasing bins -> Np.any_decreasing bins = false.
Proof.
  intros Hmono. unfold Np.any_decreasing.
  destruct (existsb _ _) eqn:E; [|reflexivity].
  apply existsb_exists in E as (b & Hin & ->).
  apply list_elem_of_In, list_elem_of_lookup in Hin as [i Hi].
  apply lookup_zip_with_Some in Hi as (lo & hi & Hb & Hlo & Hhi).
  rewrite lookup_tail in Hhi. pose proof (Hmono i lo hi Hlo Hhi) as Hle.
  apply Qle_bool_true in Hle. rewrite Hle in Hb. discriminate.
Qed.

(** The weighted histogram over non-decreasing edges: one entry per bin,
    entry [i] the sum of the weights of the samples in bin [i]. *)
Lemma histogram_weighted (a bins w : list Q) :
  length w = length a -> nondecreasing bins ->
  exists hist : list Q,
    Np.histogram a bins (Some w) = Return hist
    /\ length hist = (length bins - 1)%nat
    /\ forall (i : nat) (v : Q), hist !! i = Some v -> v == bin_sum bins i a w.
Proof.
  intros Hlen Hmono. unfold Np.histogram.
  rewrite Hlen, Nat.eqb_refl. cbn [negb].
  rewrite (any_decreasing_false bins Hmono).
  eexists. split; [reflexivity|]. split.
  - rewrite length_diff, length_search_sorted. reflexivity.
  - intros i v Hv. apply lookup_diff in Hv as (c0 & c1 & Hc0 & Hc1 & ->).
    assert (Hi : (S i < length bins)%nat).
    { apply lookup_lt_Some in Hc1. rewrite length_search_sorted in Hc1. exact Hc1. }
    assert (Hi0 : (i < length bins)%nat) by lia.
    destruct (lookup_lt_is_Some_2 bins i Hi0) as [lo Hlo].
    destruct (lookup_lt_is_Some_2 bins (S i) Hi) as [hi Hhi].
    rewrite (lookup_search_sorted _ _ _ _ _ Hlo) in Hc0.
    rewrite (lookup_search_sorted _ _ _ _ _ Hhi) in Hc1.
    destruct (Nat.eqb_spec (S i) (length bins)) as [?|_]; [lia|].
    injection Hc0 as <-. injection Hc1 as <-.
    rewrite (cum_weight_between a w _ lo hi (Hmono i lo hi Hlo Hhi)).
    unfold bin_sum, in_bin. rewrite Hlo, Hhi. reflexivity.
Qed.










Lemma fresh_lookup_ne (h : Np.heap) (l : Np.loc) (a : Np.ndarray) :
  h !! l = Some a -> fresh (dom h) <> l.
Proof.
  intros Hl Heq. pose proof (is_fresh (dom h)) as Hfresh.
  rewrite Heq in Hfresh. apply Hfresh. apply elem_of_dom. eauto.
Qed.

End Histogram.

(** ** MD_dict *)

Section MDDict.

(** Reading back along the path that was just written. *)
Lemma walk_insert_lookup (path : list string) (d : gmap string node) (k : string)
    (n : node) :
  snd (walk path (fst (walk path d (fun tmp => (<[k := n]> tmp, Return tt))))
         (fun tmp => (tmp, tmp !! k)))
  = Some n
  /\ snd (walk path d (fun tmp => (<[k := n]> tmp, Return tt))) = Return tt.
Proof.
  revert d. induction path as [|k0 path IH]; intros d; simpl.
  - split; [apply lookup_insert_eq|reflexivity].
  - set (sub := match d !! k0 with Some (Branch d0) => d0 | _ => ∅ end).
    destruct (IH sub) as [Hget Hret].
    destruct (walk path sub (fun tmp => (<[k := n]> tmp, Return tt))) as [sub' r] eqn:E.
    simpl in Hget, Hret. simpl. rewrite lookup_insert_eq.
    destruct (walk path sub' (fun tmp => (tmp, tmp !! k))) as [sub'' o] eqn:E'.
    simpl in Hget. simpl. split; [exact Hget|exact Hret].
Qed.

Lemma setitem_stores (_dict : gmap string node) (key : string) (val value units : pyval) :
  coerce val = Return (value, units) -> stored_as _dict key val value units.
Proof.
  intros Hc. unfold stored_as, MD_dict_setitem, MD_dict_getitem. rewrite Hc.
  set (path := removelast (split "." key)).
  set (k := List.last (split "." key) EmptyString).
  destruct (walk_insert_lookup path _dict k (Leaf value units)) as [Hget Hret].
  destruct (walk path _dict _) as [d' r] eqn:E. simpl in Hget, Hret. subst r.
  exists d'. split; [reflexivity|exact Hget].
Qed.

(** C7, as the code has it.  [self[key] = val] stores, for every key:
    an [md_value] as it is; a bare string with units ["text"]; a tuple or
    list of exactly two items whose second item is a string or [None] as
    the pair (value, units); and a value that cannot be subscripted, or whose
    item [[1]] is neither a string nor [None], or that has an item [[1]] but
    not exactly two items, whole with units [None]. *)
Theorem MD_dict_setitem_coercion (_dict : gmap string node) (key : string) (val : pyval) :
  (forall value units : pyval,
     val = VMd value units -> stored_as _dict key val value units)
  /\ (forall s : string, val = VStr s -> stored_as _dict key val val (VStr "text"))
  /\ (forall value units : pyval,
        val = VTuple [value; units] \/ val = VList [value; units] ->
        is_string units = true \/ units = VNone ->
        stored_as _dict key val value units)
  /\ (is_string val = false -> (forall v u : pyval, val <> VMd v u) ->
      subscript val 1 = Raise TypeError
      \/ (exists second : pyval,
            subscript val 1 = Return second
            /\ is_string second = false /\ second <> VNone)
      \/ (exists (second : pyval) (items : list pyval),
            subscript val 1 = Return second
            /\ iter_items val = Return items /\ length items <> 2%nat) ->
      stored_as _dict key val val VNone).
Proof.
  split; [|split; [|split]].
  - intros value units ->. apply setitem_stores. reflexivity.
  - intros s ->. apply setitem_stores. reflexivity.
  - intros value units Hval Hunits. apply setitem_stores.
    assert (Hu : is_string units || is_None units = true).
    { destruct Hunits as [Hs| ->]; [rewrite Hs; reflexivity|reflexivity]. }
    destruct Hval as [-> | ->]; unfold coerce, subscript; simpl; rewrite Hu; reflexivity.
  - intros Hstr Hmd Hcases. apply setitem_stores.
    destruct val as [| b | z | q | s | items | items | v u];
      try discriminate; try (exfalso; eapply Hmd; reflexivity); try reflexivity.
    + (* tuple *)
      unfold coerce. destruct Hcases as [Hc|[(second & Hc & Hs & Hn)|(second & its & Hc & Hi & Hl)]];
        rewrite Hc; try reflexivity.
      * rewrite Hs. destruct second; try reflexivity. congruence.
      * destruct (is_string second || is_None second); [|reflexivity].
        unfold md_value_star. rewrite Hi.
        destruct its as [|a [|b [|c its]]]; try reflexivity. simpl in Hl. congruence.
    + (* list *)
      unfold coerce. destruct Hcases as [Hc|[(second & Hc & Hs & Hn)|(second & its & Hc & Hi & Hl)]];
        rewrite Hc; try reflexivity.
      * rewrite Hs. destruct second; try reflexivity. congruence.
      * destruct (is_string second || is_None second); [|reflexivity].
        unfold md_value_star. rewrite Hi.
        destruct its as [|a [|b [|c its]]]; try reflexivity. simpl in Hl. congruence.
Qed.

Lemma MD_dict_setitem_coercion_witness :
  stored_as ∅ "nested.b" (VTuple [VInt 5; VStr "m"]) (VInt 5) (VStr "m")
  /\ stored_as ∅ "nested.a" (VInt 2) (VInt 2) VNone.
Proof.
  split.
  - apply (proj1 (proj2 (proj2 (MD_dict_setitem_coercion ∅ "nested.b"
                                  (VTuple [VInt 5; VStr "m"]))))).
    + left. reflexivity.
    + left. reflexivity.
  - apply (proj2 (proj2 (proj2 (MD_dict_setitem_coercion ∅ "nested.a" (VInt 2))))).
    + reflexivity.
    + intros v u. discriminate.
    + left. reflexivity.
Defined.

(** The claim as stated in C7 fails.  An [md_value] whose units are neither
    a string nor [None] is stored as it is, not whole with units [None];
    and a list of one item is not stored at all: [val[1]] raises
    [IndexError], which leaves [__setitem__]. *)
Lemma MD_dict_setitem_counterexample :
  (subscript (VMd (VInt 3) (VInt 5)) 1 = Return (VInt 5)
   /\ stored_as ∅ "a" (VMd (VInt 3) (VInt 5)) (VInt 3) (VInt 5)
   /\ ~ stored_as ∅ "a" (VMd (VInt 3) (VInt 5)) (VMd (VInt 3) (VInt 5)) VNone)
  /\ (MD_dict_setitem ∅ "a" (VList [VInt 7]) = (∅, Raise IndexError)
      /\ ~ stored_as ∅ "a" (VList [VInt 7]) (VList [VInt 7]) VNone).
Proof.
  split; [split; [reflexivity|split]|split].
  - apply setitem_stores. reflexivity.
  - intros (d' & Hset & Hget). vm_compute in Hset. injection Hset as <-.
    vm_compute in Hget. discriminate.
  - reflexivity.
  - intros (d' & Hset & _). vm_compute in Hset. discriminate.
Qed.

End MDDict.

(** ** The store: which computations leave the caller's arrays alone *)

Section Frame.

Context (base : Np.heap).

Lemma keeps_ret {A : Type} (a : A) (Q : A -> Prop) : Q a -> keeps base (Np.ret a) Q.
Proof. intros HQ h h' r Hb [= <- <-]. split; [exact Hb|exact HQ]. Qed.

Lemma keeps_raise {A : Type} (e : exn) (Q : A -> Prop) : keeps base (Np.raise e) Q.
Proof. intros h h' r Hb [= <- <-]. split; [exact Hb|exact I]. Qed.

Lemma keeps_lift {A : Type} (o : outcome A) : keeps base (Np.lift o) (fun _ => True).
Proof. intros h h' r Hb [= <- <-]. split; [exact Hb|]. destruct o; exact I. Qed.

Lemma keeps_bind {A B : Type} (m : Np.M A) (k : A -> Np.M B)
    (Q : A -> Prop) (R : B -> Prop) :
  keeps base m Q -> (forall a, Q a -> keeps base (k a) R) ->
  keeps base (Np.bind m k) R.
Proof.
  intros Hm Hk h h' r Hb. unfold Np.bind.
  destruct (m h) as [h1 [a|e]] eqn:Em.
  - destruct (Hm h h1 (Return a) Hb Em) as [Hb1 Ha]. intros Hrun.
    exact (Hk a Ha h1 h' r Hb1 Hrun).
  - destruct (Hm h h1 (Raise e) Hb Em) as [Hb1 _]. intros [= <- <-].
    split; [exact Hb1|exact I].
Qed.

Lemma keeps_load (l : Np.loc) : keeps base (Np.load l) (fun _ => True).
Proof.
  intros h h' r Hb. unfold Np.load.
  destruct (h !! l); intros [= <- <-]; split; solve [exact Hb | exact I].
Qed.

Lemma keeps_load_nums (l : Np.loc) : keeps base (Np.load_nums l) (fun _ => True).
Proof.
  unfold Np.load_nums. eapply keeps_bind; [apply keeps_load|].
  intros [bs|xs|npix imgs] _; solve [apply keeps_ret; exact I | apply keeps_raise].
Qed.

Lemma keeps_load_flags (l : Np.loc) : keeps base (Np.load_flags l) (fun _ => True).
Proof.
  unfold Np.load_flags. eapply keeps_bind; [apply keeps_load|].
  intros [bs|xs|npix imgs] _; solve [apply keeps_ret; exact I | apply keeps_raise].
Qed.

Lemma keeps_load_imgs (l : Np.loc) : keeps base (Np.load_imgs l) (fun _ => True).
Proof.
  unfold Np.load_imgs. eapply keeps_bind; [apply keeps_load|].
  intros [bs|xs|npix imgs] _; solve [apply keeps_ret; exact I | apply keeps_raise].
Qed.

Lemma keeps_get_flag (l : Np.loc) (i : nat) : keeps base (Np.get_flag l i) (fun _ => True).
Proof.
  unfold Np.get_flag. eapply keeps_bind; [apply keeps_load_flags|].
  intros bs _. apply keeps_lift.
Qed.

Lemma keeps_get_img (l : Np.loc) (i : nat) : keeps base (Np.get_img l i) (fun _ => True).
Proof.
  unfold Np.get_img. eapply keeps_bind; [apply keeps_load_imgs|].
  intros a _. apply keeps_lift.
Qed.

Lemma keeps_sum_flags (l : Np.loc) : keeps base (Np.sum_flags l) (fun _ => True).
Proof.
  unfold Np.sum_flags. eapply keeps_bind; [apply keeps_load_flags|].
  intros bs _. apply keeps_ret. exact I.
Qed.

(** A new array gets a reference that names no array of [base]. *)
Lemma keeps_alloc (a : Np.ndarray) : keeps base (Np.alloc a) (fresh_in base).
Proof.
  intros h h' r Hb. unfold Np.alloc. intros [= <- <-].
  assert (Hfresh : h !! fresh (dom h) = None).
  { apply not_elem_of_dom. apply is_fresh. }
  assert (Hbase : base !! fresh (dom h) = None).
  { destruct (base !! fresh (dom h)) as [x|] eqn:E; [|reflexivity].
    rewrite (lookup_weaken _ _ _ _ E Hb) in Hfresh. discriminate. }
  split; [|exact Hbase].
  apply insert_subseteq_r; [exact Hbase|exact Hb].
Qed.

(** A write into an array that is not one of [base]. *)
Lemma keeps_store (l : Np.loc) (a : Np.ndarray) :
  fresh_in base l -> keeps base (Np.store l a) (fun _ => True).
Proof.
  intros Hl h h' r Hb. unfold Np.store. intros [= <- <-].
  split; [|exact I]. apply insert_subseteq_r; [exact Hl|exact Hb].
Qed.

Lemma keeps_set_img (l : Np.loc) (i : nat) (img : list Q) :
  fresh_in base l -> keeps base (Np.set_img l i img) (fun _ => True).
Proof.
  intros Hl. unfold Np.set_img. eapply keeps_bind; [apply keeps_load_imgs|].
  intros a _. destruct (_ <? _)%nat; [apply keeps_store; exact Hl|apply keeps_raise].
Qed.

Lemma keeps_zeros (n : Z) (npix : nat) : keeps base (Np.zeros n npix) (fresh_in base).
Proof.
  unfold Np.zeros. destruct (n <? 0)%Z; [apply keeps_raise|apply keeps_alloc].
Qed.

Lemma keeps_for_each {S : Type} (xs : list nat) (body : nat -> S -> Np.M S) (s : S) :
  (forall x s', keeps base (body x s') (fun _ => True)) ->
  keeps base (Np.for_each xs body s) (fun _ => True).
Proof.
  intros Hbody. revert s. induction xs as [|x xs IH]; intros s; simpl.
  - apply keeps_ret. exact I.
  - eapply keeps_bind; [apply Hbody|]. intros s' _. apply IH.
Qed.

Lemma keeps_histogram_of (a bins : Np.loc) (weights : option Np.loc) :
  keeps base (histogram_of a bins weights) (fresh_in base).
Proof.
  unfold histogram_of.
  eapply keeps_bind; [apply keeps_load_nums|]. intros xs _.
  eapply keeps_bind; [apply keeps_load_nums|]. intros es _.
  eapply keeps_bind with (Q := fun _ => True).
  { destruct weights as [y|].
    - eapply keeps_bind; [apply keeps_load_nums|]. intros ys _.
      apply keeps_ret. exact I.
    - apply keeps_ret. exact I. }
  intros ws _.
  eapply keeps_bind; [apply keeps_lift|]. intros hist _. apply keeps_alloc.
Qed.

Lemma keeps_img_subtraction_pre (img_arr is_reference : Np.loc) :
  keeps base (img_subtraction_pre img_arr is_reference) (fresh_in base).
Proof.
  unfold img_subtraction_pre.
  eapply keeps_bind; [apply keeps_get_flag|]. intros first _.
  destruct first; cbn [negb]; [|apply keeps_raise].
  eapply keeps_bind; [apply keeps_get_img|]. intros img0 _.
  eapply keeps_bind; [apply keeps_sum_flags|]. intros ref_count _.
  eapply keeps_bind; [apply keeps_load_imgs|]. intros arr _.
  eapply keeps_bind; [apply keeps_load_flags|]. intros flags _.
  eapply keeps_bind; [apply keeps_zeros|]. intros corrected_image Hfresh.
  eapply keeps_bind with (Q := fun _ => True).
  - apply keeps_for_each. intros i [ref_imge count]. unfold subtraction_step.
    eapply keeps_bind; [apply keeps_get_img|]. intros img _.
    eapply keeps_bind; [apply keeps_get_flag|]. intros ref _.
    destruct ref; [apply keeps_ret; exact I|].
    eapply keeps_bind; [apply keeps_get_img|]. intros ref_img _.
    eapply keeps_bind; [apply keeps_set_img; exact Hfresh|]. intros _ _.
    apply keeps_ret. exact I.
  - intros _ _. apply keeps_ret. exact Hfresh.
Qed.

Lemma keeps_bin_1D (x y : Np.loc) (nx : option Z) (min_x max_x : option Q) :
  keeps base (bin_1D x y nx min_x max_x)
    (fun '(bins, val, count) =>
       fresh_in base bins /\ fresh_in base val /\ fresh_in base count).
Proof.
  unfold bin_1D.
  eapply keeps_bind with (Q := fun _ => True).
  { destruct min_x as [m|]; [apply keeps_ret; exact I|].
    eapply keeps_bind; [apply keeps_load_nums|]. intros xs _. apply keeps_lift. }
  intros lo _.
  eapply keeps_bind with (Q := fun _ => True).
  { destruct max_x as [m|]; [apply keeps_ret; exact I|].
    eapply keeps_bind; [apply keeps_load_nums|]. intros xs _. apply keeps_lift. }
  intros hi _.
  eapply keeps_bind; [apply keeps_lift|]. intros edges _.
  eapply keeps_bind; [apply keeps_alloc|]. intros bins Hbins.
  eapply keeps_bind; [apply keeps_histogram_of|]. intros val Hval.
  eapply keeps_bind; [apply keeps_histogram_of|]. intros count Hcount.
  apply keeps_ret. auto.
Qed.

End Frame.

(** C10: [img_subtraction_pre] and [bin_1D] leave every array of the
    caller's store unchanged, in particular their arguments ([img_arr],
    [is_reference], [x], [y]), whether they return or raise; the arrays they
    return are new ones. *)
Theorem inputs_unchanged (h : Np.heap) :
  (forall img_arr is_reference : Np.loc,
     let '(h', r) := img_subtraction_pre img_arr is_reference h in
     (forall (l : Np.loc) (a : Np.ndarray), h !! l = Some a -> h' !! l = Some a)
     /\ match r with
        | Return img_corr => h !! img_corr = None
        | Raise _ => True
        end)
  /\ (forall (x y : Np.loc) (nx : option Z) (min_x max_x : option Q),
        let '(h', r) := bin_1D x y nx min_x max_x h in
        (forall (l : Np.loc) (a : Np.ndarray), h !! l = Some a -> h' !! l = Some a)
        /\ match r with
           | Return (edges, val, count) =>
               h !! edges = None /\ h !! val = None /\ h !! count = None
           | Raise _ => True
           end).
Proof.
  split.
  - intros img_arr is_reference.
    destruct (img_subtraction_pre img_arr is_reference h) as [h' r] eqn:E.
    destruct (keeps_img_subtraction_pre h img_arr is_reference h h' r
                (reflexivity h) E) as [Hsub Hr].
    split.
    + intros l a Hl. exact (lookup_weaken _ _ _ _ Hl Hsub).
    + destruct r as [lc|e]; [exact Hr|exact I].
  - intros x y nx min_x max_x.
    destruct (bin_1D x y nx min_x max_x h) as [h' r] eqn:E.
    destruct (keeps_bin_1D h x y nx min_x max_x h h' r (reflexivity h) E)
      as [Hsub Hr].
    split.
    + intros l a Hl. exact (lookup_weaken _ _ _ _ Hl Hsub).
    + destruct r as [[[edges val] count]|e]; [exact Hr|exact I].
Qed.

Lemma inputs_unchanged_witness :
  fst (img_subtraction_pre 0%nat 1%nat example_images) !! 0%nat
  = Some (Np.ImgArray 2 [[10; 10]; [11; 12]; [13; 14]; [1; 1]; [5; 6]])
  /\ fst (bin_1D 0%nat 1%nat (Some 2%Z) None None example_samples) !! 1%nat
     = Some (Np.NumArray [1; 1; 1; 1; 1; 5; 7]).
Proof.
  split.
  - pose proof (proj1 (inputs_unchanged example_images) 0%nat 1%nat) as H.
    destruct (img_subtraction_pre 0%nat 1%nat example_images) as [h' r].
    destruct H as [H _]. apply H. reflexivity.
  - pose proof (proj2 (inputs_unchanged example_samples) 0%nat 1%nat
                  (Some 2%Z) None None) as H.
    destruct (bin_1D 0%nat 1%nat (Some 2%Z) None None example_samples) as [h' r].
    destruct H as [H _]. apply H. reflexivity.
Defined.

(** * Further properties *)

(** ** bin_edges: errors *)

Section BinEdgesMore.

(** X1: when both ends are given and [range_max <= range_min], the call
    raises [ValueError], whatever [nbins] and [step] are. *)
Theorem bin_edges_max_not_above_min (range_min range_max : Q) (nbins : option Z)
    (step : option Q) :
  range_max <= range_min ->
  bin_edges (Some range_min) (Some range_max) nbins step = ([], Raise ValueError).
Proof.
  intros Hle. apply Qle_bool_true in Hle.
  destruct nbins as [n|], step as [st|]; unfold bin_edges;
    try reflexivity;
    change (negb (sum_bools _ =? 3)%Z) with false; cbn match;
    rewrite Hle; reflexivity.
Qed.

Lemma bin_edges_max_not_above_min_witness :
  bin_edges (Some 10) (Some 10) (Some 5%Z) None = ([], Raise ValueError).
Proof. apply (bin_edges_max_not_above_min 10 10 (Some 5%Z) None). discriminate. Defined.

(** X2: an [nbins] that is zero or negative raises [ValueError], whatever
    the other arguments are. *)
Theorem bin_edges_nbins_not_positive (range_min range_max : option Q) (nbins : Z)
    (step : option Q) :
  (nbins <= 0)%Z ->
  bin_edges range_min range_max (Some nbins) step = ([], Raise ValueError).
Proof.
  intros Hn. apply Z.leb_le in Hn.
  destruct range_min as [lo|], range_max as [hi|], step as [st|]; unfold bin_edges;
    try reflexivity;
    change (negb (sum_bools _ =? 3)%Z) with false; cbn match;
    try (destruct (Qle_bool hi lo); [reflexivity|]);
    rewrite Hn; reflexivity.
Qed.

Lemma bin_edges_nbins_not_positive_witness :
  bin_edges (Some 0) (Some 10) (Some 0%Z) None = ([], Raise ValueError).
Proof. apply (bin_edges_nbins_not_positive (Some 0) (Some 10) 0%Z None). lia. Defined.

End BinEdgesMore.

(** ** bin_1D: totals and errors *)

Section Bin1DMore.











Lemma bind_raise_run {A B : Type} (m : Np.M A) (k : A -> Np.M B) (h h' : Np.heap)
    (e : exn) :
  m h = (h', Raise e) -> Np.bind m k h = (h', Raise e).
Proof. intros H. unfold Np.bind. rewrite H. reflexivity. Qed.

(** X13: with an empty [x] and [min_x] or [max_x] omitted there is no least
    or greatest position: the call raises [ValueError] and the store is as it
    was. *)
Theorem bin_1D_empty_default (h : Np.heap) (x y : Np.loc) (nx : option Z)
    (min_x max_x : option Q) :
  h !! x = Some (Np.NumArray []) ->
  min_x = None \/ max_x = None ->
  bin_1D x y nx min_x max_x h = (h, Raise ValueError).
Proof.
  intros Hx Hnone. unfold bin_1D.
  assert (Hmin : Np.bind (Np.load_nums x) (fun xs => Np.lift (Np.amin xs)) h
                 = (h, Raise ValueError)).
  { rewrite (bind_run _ _ _ _ _ (load_nums_run _ _ _ Hx)). reflexivity. }
  assert (Hmax : Np.bind (Np.load_nums x) (fun xs => Np.lift (Np.amax xs)) h
                 = (h, Raise ValueError)).
  { rewrite (bind_run _ _ _ _ _ (load_nums_run _ _ _ Hx)). reflexivity. }
  destruct min_x as [m|].
  - destruct Hnone as [?| ->]; [discriminate|].
    rewrite (bind_run (Np.ret m) _ h h m eq_refl).
    apply bind_raise_run. exact Hmax.
  - apply bind_raise_run. exact Hmin.
Qed.

Lemma bin_1D_empty_default_witness :
  bin_1D 0%nat 0%nat None None None (<[0%nat := Np.NumArray []]> ∅)
  = (<[0%nat := Np.NumArray []]> ∅, Raise ValueError).
Proof.
  apply (bin_1D_empty_default (<[0%nat := Np.NumArray []]> ∅) 0%nat 0%nat None None None).
  - reflexivity.
  - left. reflexivity.
Defined.

Lemma resolve_min_total (h : Np.heap) (x : Np.loc) (xs : list Q) (min_x : option Q) :
  h !! x = Some (Np.NumArray xs) ->
  (exists m : Q,
     match min_x with
     | None => Np.bind (Np.load_nums x) (fun xs => Np.lift (Np.amin xs))
     | Some m => Np.ret m
     end h = (h, Return m))
  \/ match min_x with
     | None => Np.bind (Np.load_nums x) (fun xs => Np.lift (Np.amin xs))
     | Some m => Np.ret m
     end h = (h, Raise ValueError).
Proof.
  intros Hx. destruct min_x as [m|]; [left; exists m; reflexivity|].
  rewrite (bind_run _ _ _ _ _ (load_nums_run _ _ _ Hx)).
  destruct xs as [|x0 xs]; [right; reflexivity|left; eexists; reflexivity].
Qed.

Lemma resolve_max_total (h : Np.heap) (x : Np.loc) (xs : list Q) (max_x : option Q) :
  h !! x = Some (Np.NumArray xs) ->
  (exists m : Q,
     match max_x with
     | None => Np.bind (Np.load_nums x) (fun xs => Np.lift (Np.amax xs))
     | Some m => Np.ret m
     end h = (h, Return m))
  \/ match max_x with
     | None => Np.bind (Np.load_nums x) (fun xs => Np.lift (Np.amax xs))
     | Some m => Np.ret m
     end h = (h, Raise ValueError).
Proof.
  intros Hx. destruct max_x as [m|]; [left; exists m; reflexivity|].
  rewrite (bind_run _ _ _ _ _ (load_nums_run _ _ _ Hx)).
  destruct xs as [|x0 xs]; [right; reflexivity|left; eexists; reflexivity].
Qed.

Lemma histogram_of_raise (h : Np.heap) (a bins y : Np.loc) (xs es ys : list Q) (e : exn) :
  h !! a = Some (Np.NumArray xs) ->
  h !! bins = Some (Np.NumArray es) ->
  h !! y = Some (Np.NumArray ys) ->
  Np.histogram xs es (Some ys) = Raise e ->
  histogram_of a bins (Some y) h = (h, Raise e).
Proof.
  intros Ha Hbins Hy Hhist. unfold histogram_of.
  rewrite (bind_run _ _ _ _ _ (load_nums_run _ _ _ Ha)).
  rewrite (bind_run _ _ _ _ _ (load_nums_run _ _ _ Hbins)).
  rewrite (bind_bind_run _ _ _ _ _ _ (load_nums_run _ _ _ Hy)).
  rewrite (bind_run _ _ h h (Some ys) eq_refl).
  apply bind_raise_run. unfold Np.lift. rewrite Hhist. reflexivity.
Qed.

(** The call raises [ValueError] whenever the weighted histogram of the
    edges it builds does. *)
Lemma bin_1D_raises_with_histogram (h : Np.heap) (x y : Np.loc) (xs ys : list Q)
    (nx : option Z) (min_x max_x : option Q) :
  h !! x = Some (Np.NumArray xs) ->
  h !! y = Some (Np.NumArray ys) ->
  (forall edges : list Q,
     (exists lo hi : Q,
        (forall m : Q, min_x = Some m -> lo = m)
        /\ (forall m : Q, max_x = Some m -> hi = m)
        /\ Np.linspace lo hi (match nx with Some n => n | None => 100%Z end + 1)
           = Return edges) ->
     Np.histogram xs edges (Some ys) = Raise ValueError) ->
  snd (bin_1D x y nx min_x max_x h) = Raise ValueError.
Proof.
  intros Hx Hy Hhist. unfold bin_1D.
  destruct (resolve_min_total h x xs min_x Hx) as [[mlo Hlo]|Hlo].
  2:{ rewrite (bind_raise_run _ _ _ _ _ Hlo). reflexivity. }
  rewrite (bind_run _ _ _ _ _ Hlo).
  destruct (resolve_max_total h x xs max_x Hx) as [[mhi Hhi]|Hhi].
  2:{ rewrite (bind_raise_run _ _ _ _ _ Hhi). reflexivity. }
  rewrite (bind_run _ _ _ _ _ Hhi). cbv zeta.
  change (match nx with Some n0 => n0 | None => defaults_bins end)
    with (match nx with Some n0 => n0 | None => 100%Z end).
  destruct (Np.linspace mlo mhi (match nx with Some n0 => n0 | None => 100%Z end + 1))
    as [edges|e] eqn:Hlin.
  2:{ unfold Np.linspace in Hlin. destruct (_ <? 0)%Z; [|discriminate].
      injection Hlin as <-. reflexivity. }
  rewrite (bind_run (Np.lift (Return edges)) _ h h edges eq_refl).
  set (l_edges := fresh (dom h)).
  set (h1 := <[l_edges := Np.NumArray edges]> h).
  rewrite (bind_run (Np.alloc (Np.NumArray edges)) _ h h1 l_edges eq_refl).
  assert (Hx1 : h1 !! x = Some (Np.NumArray xs)).
  { unfold h1. rewrite lookup_insert_ne by (eapply fresh_lookup_ne; exact Hx). exact Hx. }
  assert (Hy1 : h1 !! y = Some (Np.NumArray ys)).
  { unfold h1. rewrite lookup_insert_ne by (eapply fresh_lookup_ne; exact Hy). exact Hy. }
  assert (He1 : h1 !! l_edges = Some (Np.NumArray edges)) by apply lookup_insert_eq.
  assert (Hraise : Np.histogram xs edges (Some ys) = Raise ValueError).
  { apply Hhist. exists mlo, mhi. split; [|split; [|exact Hlin]].
    - intros m ->. simpl in Hlo. injection Hlo as ->. reflexivity.
    - intros m ->. simpl in Hhi. injection Hhi as ->. reflexivity. }
  rewrite (bind_raise_run _ _ _ _ _
             (histogram_of_raise h1 x l_edges y xs edges ys ValueError Hx1 He1 Hy1 Hraise)).
  reflexivity.
Qed.

(** X14: when [x] and [y] differ in length the call raises [ValueError],
    whatever the number of bins and the bounds are. *)
Theorem bin_1D_length_mismatch (h : Np.heap) (x y : Np.loc) (xs ys : list Q)
    (nx : option Z) (min_x max_x : option Q) :
  h !! x = Some (Np.NumArray xs) ->
  h !! y = Some (Np.NumArray ys) ->
  length xs <> length ys ->
  snd (bin_1D x y nx min_x max_x h) = Raise ValueError.
Proof.
  intros Hx Hy Hlen. apply (bin_1D_raises_with_histogram h x y xs ys); try assumption.
  intros edges _. unfold Np.histogram.
  destruct (Nat.eqb_spec (length ys) (length xs)) as [E|_]; [congruence|reflexivity].
Qed.

Lemma bin_1D_length_mismatch_witness :
  snd (bin_1D 0%nat 1%nat (Some 2%Z) None None
         (<[0%nat := Np.NumArray [0; 1; 2]]> (<[1%nat := Np.NumArray [1; 1]]> ∅)))
  = Raise ValueError.
Proof.
  apply (bin_1D_length_mismatch _ 0%nat 1%nat [0; 1; 2] [1; 1]).
  - reflexivity.
  - reflexivity.
  - simpl. lia.
Defined.



End Bin1DMore.

(** ** img_subtraction_pre: errors and flags shorter than the images *)

Section ImgSubtractionMore.

(** X16: when the first flag is false the call raises [ValueError] and the
    store is as it was. *)
Theorem img_subtraction_pre_first_not_reference (h : Np.heap)
    (img_arr is_reference : Np.loc) (flags : list bool) :
  h !! is_reference = Some (Np.BoolArray (false :: flags)) ->
  img_subtraction_pre img_arr is_reference h = (h, Raise ValueError).
Proof.
  intros Hflags. unfold img_subtraction_pre.
  rewrite (bind_run _ _ _ _ _ (get_flag_run _ _ _ 0 false Hflags eq_refl)).
  reflexivity.
Qed.

Lemma img_subtraction_pre_first_not_reference_witness :
  img_subtraction_pre 0%nat 1%nat (<[1%nat := Np.BoolArray [false; true]]> ∅)
  = (<[1%nat := Np.BoolArray [false; true]]> ∅, Raise ValueError).
Proof.
  apply (img_subtraction_pre_first_not_reference _ 0%nat 1%nat [true]). reflexivity.
Defined.

(** X17: with no flags at all, or with a true first flag and no images, the
    call raises [IndexError] and the store is as it was. *)
Theorem img_subtraction_pre_empty (h : Np.heap) (img_arr is_reference : Np.loc) :
  (h !! is_reference = Some (Np.BoolArray []) ->
   img_subtraction_pre img_arr is_reference h = (h, Raise IndexError))
  /\ (forall (flags : list bool) (npix : nat),
        h !! is_reference = Some (Np.BoolArray (true :: flags)) ->
        h !! img_arr = Some (Np.ImgArray npix []) ->
        img_subtraction_pre img_arr is_reference h = (h, Raise IndexError)).
Proof.
  split.
  - intros Hflags. unfold img_subtraction_pre. apply bind_raise_run.
    unfold Np.get_flag. rewrite (bind_run _ _ _ _ _ (load_flags_run _ _ _ Hflags)).
    reflexivity.
  - intros flags npix Hflags Himgs. unfold img_subtraction_pre.
    rewrite (bind_run _ _ _ _ _ (get_flag_run _ _ _ 0 true Hflags eq_refl)).
    cbn [negb]. apply bind_raise_run.
    unfold Np.get_img. rewrite (bind_run _ _ _ _ _ (load_imgs_run _ _ _ _ Himgs)).
    reflexivity.
Qed.

Lemma img_subtraction_pre_empty_witness :
  img_subtraction_pre 0%nat 1%nat (<[1%nat := Np.BoolArray []]> ∅)
  = (<[1%nat := Np.BoolArray []]> ∅, Raise IndexError).
Proof.
  apply (proj1 (img_subtraction_pre_empty (<[1%nat := Np.BoolArray []]> ∅) 0%nat 1%nat)).
  reflexivity.
Defined.

Section LoopPrefix.

Context (h0 : Np.heap) (img_arr is_reference lc : Np.loc) (npix : nat)
  (imgs : list (list Q)) (flags : list bool).
Hypothesis Himgs : h0 !! img_arr = Some (Np.ImgArray npix imgs).
Hypothesis Hflags : h0 !! is_reference = Some (Np.BoolArray flags).
Hypothesis Hlc : h0 !! lc = None.


End LoopPrefix.

Lemma reference_count_le (flags : list bool) :
  (reference_count flags <= length flags)%nat.
Proof. pose proof (measured_plus_reference flags). lia. Qed.



End ImgSubtractionMore.

(** ** detector2D_to_1D: when the coordinates belong to the pixels *)

Section DetectorMore.

(** X19: the coordinate arrays list every grid point once, column by
    column: for a row [r] and a column [c] of the image, position
    [c * rows + r] of [X] holds [r - center[0]] and that of [Y] holds
    [c - center[1]], while the same position of [I], for an image that has
    its [rows * cols] pixels, is pixel [(c * rows + r) / cols],
    [(c * rows + r) mod cols]. *)
Theorem detector2D_to_1D_column_major (img : image) (center : Q * Q) :
  exists X Y : list Q,
    detector2D_to_1D img center = (X, Y, pixels img)
    /\ length X = (shape0 img * shape1 img)%nat
    /\ length Y = (shape0 img * shape1 img)%nat
    /\ forall r c : nat, (r < shape0 img)%nat -> (c < shape1 img)%nat ->
         X !! (c * shape0 img + r)%nat = Some (inject_Z (Z.of_nat r) - fst center)
         /\ Y !! (c * shape0 img + r)%nat = Some (inject_Z (Z.of_nat c) - snd center).
Proof.
  destruct (detector2D_to_1D_computes img center) as (X & Y & Hrun & HX & HY & Hk).
  exists X, Y. split; [exact Hrun|]. split; [exact HX|]. split; [exact HY|].
  intros r c Hr Hc.
  assert (Hlt : (c * shape0 img + r < shape0 img * shape1 img)%nat) by nia.
  destruct (Hk _ Hlt) as [Hx Hy].
  assert (Hmod : ((c * shape0 img + r) mod shape0 img = r)%nat).
  { rewrite Nat.add_comm, Nat.Div0.mod_add. apply Nat.mod_small. exact Hr. }
  assert (Hdiv : ((c * shape0 img + r) / shape0 img = c)%nat).
  { rewrite Nat.add_comm, Nat.div_add by lia. rewrite Nat.div_small by exact Hr.
    reflexivity. }
  rewrite Hmod in Hx. rewrite Hdiv in Hy. split; assumption.
Qed.

Lemma detector2D_to_1D_column_major_witness :
  exists X Y : list Q,
    detector2D_to_1D (Image 2 3 [10; 11; 12; 13; 14; 15]) (0, 0)
    = (X, Y, [10; 11; 12; 13; 14; 15])
    /\ X !! 3%nat = Some (inject_Z 1 - 0).
Proof.
  destruct (detector2D_to_1D_column_major (Image 2 3 [10; 11; 12; 13; 14; 15]) (0, 0))
    as (X & Y & Hrun & _ & _ & Hk).
  exists X, Y. split; [exact Hrun|].
  apply (Hk 1%nat 1%nat); simpl; lia.
Defined.

(** X20: for a square image the arrays pair up with the pixels of [I] when
    [X] is read as the column and [Y] as the row; for an image of a single
    row or a single column they do when [X] is read as the row and [Y] as
    the column. *)
Theorem detector2D_to_1D_square_or_line (img : image) (center : Q * Q) :
  exists X Y : list Q,
    detector2D_to_1D img center = (X, Y, pixels img)
    /\ (shape0 img = shape1 img -> coordinates_match_xy img center X Y)
    /\ (shape0 img = 1%nat \/ shape1 img = 1%nat -> coordinates_match img center X Y).
Proof.
  destruct (detector2D_to_1D_computes img center) as (X & Y & Hrun & _ & _ & Hk).
  exists X, Y. split; [exact Hrun|]. split.
  - intros Hsq k Hlt. destruct (Hk k Hlt) as [HX HY].
    eexists _, _. split; [exact HX|]. split; [exact HY|].
    unfold pixel_col, pixel_row. rewrite <- Hsq. split; reflexivity.
  - intros Hline k Hlt. destruct (Hk k Hlt) as [HX HY].
    eexists _, _. split; [exact HX|]. split; [exact HY|].
    unfold pixel_col, pixel_row. destruct Hline as [H1|H1]; rewrite H1 in *.
    + rewrite Nat.mod_1_r, Nat.div_1_r.
      rewrite Nat.div_small, Nat.mod_small by lia. split; reflexivity.
    + rewrite Nat.mod_1_r, Nat.div_1_r.
      rewrite Nat.div_small, Nat.mod_small by lia. split; reflexivity.
Qed.

Lemma detector2D_to_1D_square_or_line_witness :
  exists X Y : list Q,
    detector2D_to_1D (Image 2 2 [1; 2; 3; 4]) (0, 0) = (X, Y, [1; 2; 3; 4])
    /\ coordinates_match_xy (Image 2 2 [1; 2; 3; 4]) (0, 0) X Y.
Proof.
  destruct (detector2D_to_1D_square_or_line (Image 2 2 [1; 2; 3; 4]) (0, 0))
    as (X & Y & Hrun & Hsq & _).
  exists X, Y. split; [exact Hrun|]. apply Hsq. reflexivity.
Defined.

End DetectorMore.

(** ** MD_dict: errors, other keys, deleting, iterating *)

Section MDDictMore.

Lemma split_nonempty (sep : Ascii.ascii) (s : string) : split sep s <> [].
Proof.
  destruct s as [|c s]; simpl; [discriminate|].
  destruct (Ascii.eqb c sep); [discriminate|]. destruct (split sep s); discriminate.
Qed.

Lemma removelast_cons_nonempty {A : Type} (x : A) (l : list A) :
  l <> [] -> removelast (x :: l) = x :: removelast l.
Proof. destruct l; [congruence|reflexivity]. Qed.

Lemma last_cons_nonempty {A : Type} (x d : A) (l : list A) :
  l <> [] -> List.last (x :: l) d = List.last l d.
Proof. destruct l; [congruence|reflexivity]. Qed.

(** The result of the walk does not depend on what [at_end] does to the
    dictionary when its result does not. *)
Lemma walk_snd_const {A : Type} (path : list string) (d : gmap string node)
    (at_end : gmap string node -> gmap string node * A) (a : A) :
  (forall tmp, snd (at_end tmp) = a) -> snd (walk path d at_end) = a.
Proof.
  intros Hconst. revert d. induction path as [|k path IH]; intros d; simpl.
  - apply Hconst.
  - set (sub := match d !! k with Some (Branch d0) => d0 | _ => ∅ end).
    specialize (IH sub). destruct (walk path sub at_end) as [sub' a']. exact IH.
Qed.


Lemma coerce_short (val : pyval) : short_sequence val -> coerce val = Raise IndexError.
Proof.
  intros (items & [-> | ->] & Hlen);
    destruct items as [|a [|b items]]; simpl in Hlen; try lia; reflexivity.
Qed.

Lemma coerce_not_short (val : pyval) :
  ~ short_sequence val -> exists mv : pyval * pyval, coerce val = Return mv.
Proof.
  intros Hns.
  assert (Hseq : forall items : list pyval,
            val = VTuple items \/ val = VList items ->
            exists mv : pyval * pyval, coerce val = Return mv).
  { intros items Hval.
    destruct items as [|a [|b items]].
    - exfalso. apply Hns. exists []. split; [exact Hval|simpl; lia].
    - exfalso. apply Hns. exists [a]. split; [exact Hval|simpl; lia].
    - destruct Hval as [-> | ->]; unfold coerce, subscript, md_value_star; simpl;
        destruct (is_string b || is_None b); destruct items; eexists; reflexivity. }
  destruct val as [| b | z | q | s | items | items | v u];
    try (eexists; reflexivity).
  - apply (Hseq items). left. reflexivity.
  - apply (Hseq items). right. reflexivity.
Qed.

(** X22: [self[key] = val] raises exactly when [val] is a tuple or list with
    fewer than two items, and then [IndexError]; for every other value, and
    every key and dictionary, it returns. *)
Theorem MD_dict_setitem_raises_iff (_dict : gmap string node) (key : string) (val : pyval) :
  (short_sequence val -> snd (MD_dict_setitem _dict key val) = Raise IndexError)
  /\ (~ short_sequence val -> snd (MD_dict_setitem _dict key val) = Return tt).
Proof.
  unfold MD_dict_setitem. split.
  - intros Hshort. apply walk_snd_const. intros tmp.
    rewrite (coerce_short val Hshort). reflexivity.
  - intros Hns. destruct (coerce_not_short val Hns) as [[value units] Hc].
    apply walk_snd_const. intros tmp. rewrite Hc. reflexivity.
Qed.

Lemma MD_dict_setitem_raises_iff_witness :
  snd (MD_dict_setitem ∅ "nested.a" (VTuple [VInt 5])) = Raise IndexError.
Proof.
  apply (proj1 (MD_dict_setitem_raises_iff ∅ "nested.a" (VTuple [VInt 5]))).
  exists [VInt 5]. split; [left; reflexivity|simpl; lia].
Defined.





Lemma walk_insert_delete (path : list string) (d : gmap string node) (k : string)
    (n : node) :
  exists d'' : gmap string node,
    delete_walk path k (fst (walk path d (fun tmp => (<[k := n]> tmp, Return tt))))
    = Returned d''
    /\ snd (walk path d'' (fun tmp => (tmp, tmp !! k))) = None.
Proof.
  revert d. induction path as [|k0 path IH]; intros d; simpl.
  - rewrite lookup_insert_eq. eexists. split; [reflexivity|]. apply lookup_delete_eq.
  - set (sub := match d !! k0 with Some (Branch d0) => d0 | _ => ∅ end).
    destruct (IH sub) as (sub'' & Hdel & Hget).
    destruct (walk path sub (fun tmp => (<[k := n]> tmp, Return tt))) as [sub' r] eqn:E.
    simpl in Hdel. simpl. rewrite lookup_insert_eq, Hdel.
    eexists. split; [reflexivity|]. simpl. rewrite lookup_insert_eq.
    destruct (walk path sub'' (fun tmp => (tmp, tmp !! k))) as [s3 o] eqn:E3.
    simpl in Hget. simpl. exact Hget.
Qed.

(** X24: a key that was stored can be deleted: after [self[key] = val]
    returned, [del self[key]] returns too, and [self[key]] is [None]
    afterwards. *)
Theorem MD_dict_delitem_after_setitem (_dict : gmap string node) (key : string)
    (val : pyval) :
  snd (MD_dict_setitem _dict key val) = Return tt ->
  exists d'' : gmap string node,
    MD_dict_delitem (fst (MD_dict_setitem _dict key val)) key = (d'', Returned tt)
    /\ snd (MD_dict_getitem d'' key) = None.
Proof.
  intros Hret. unfold MD_dict_setitem in *.
  destruct (coerce val) as [[value units]|e] eqn:Hc.
  - set (path := removelast (split "." key)) in *.
    set (k := List.last (split "." key) EmptyString) in *.
    destruct (walk_insert_delete path _dict k (Leaf value units)) as (d'' & Hdel & Hget).
    exists d''. unfold MD_dict_delitem, MD_dict_getitem. fold path. fold k.
    rewrite Hdel. split; [reflexivity|exact Hget].
  - rewrite (walk_snd_const _ _ _ (Raise e)) in Hret by (intros tmp; reflexivity).
    discriminate.
Qed.

Lemma MD_dict_delitem_after_setitem_witness :
  exists d'' : gmap string node,
    MD_dict_delitem (fst (MD_dict_setitem ∅ "nested.b" (VTuple [VInt 5; VStr "m"])))
      "nested.b" = (d'', Returned tt)
    /\ snd (MD_dict_getitem d'' "nested.b") = None.
Proof.
  apply (MD_dict_delitem_after_setitem ∅ "nested.b" (VTuple [VInt 5; VStr "m"])).
  reflexivity.
Defined.

(** X25: deleting does not create or replace anything.  When the first
    segment of the key is not in the dictionary, [del self[key]] raises
    [KeyError]; when the key is dotted and its first segment is a leaf, it
    raises [AttributeError]; in both cases the dictionary is as it was. *)
Theorem MD_dict_delitem_errors (_dict : gmap string node) (key k : string)
    (rest : list string) :
  split "." key = k :: rest ->
  (_dict !! k = None -> MD_dict_delitem _dict key = (_dict, Raised (Builtin KeyError)))
  /\ (forall value units : pyval,
        rest <> [] -> _dict !! k = Some (Leaf value units) ->
        MD_dict_delitem _dict key = (_dict, Raised AttributeError)).
Proof.
  intros Hsplit. unfold MD_dict_delitem. rewrite Hsplit. split.
  - intros Hnone. destruct rest as [|k1 rest].
    + simpl. rewrite Hnone. reflexivity.
    + rewrite removelast_cons_nonempty by discriminate. simpl. rewrite Hnone.
      reflexivity.
  - intros value units Hrest Hleaf.
    rewrite removelast_cons_nonempty by exact Hrest. simpl. rewrite Hleaf. reflexivity.
Qed.

Lemma MD_dict_delitem_errors_witness :
  MD_dict_delitem ∅ "nested.a" = (∅, Raised (Builtin KeyError))
  /\ MD_dict_delitem (<["a" := Leaf (VInt 1) VNone]> ∅) "a.b"
     = (<["a" := Leaf (VInt 1) VNone]> ∅, Raised AttributeError).
Proof.
  split.
  - apply (proj1 (MD_dict_delitem_errors ∅ "nested.a" "nested" ["a"] eq_refl)).
    reflexivity.
  - apply (proj2 (MD_dict_delitem_errors (<["a" := Leaf (VInt 1) VNone]> ∅)
                    "a.b" "a" ["b"] eq_refl) (VInt 1) VNone).
    + discriminate.
    + reflexivity.
Defined.

(** Joining the segments of a key gives the key back. *)
Lemma join_split (c : Ascii.ascii) (s : string) :
  join (String c EmptyString) (split c s) = s.
Proof.
  induction s as [|a s IH]; [reflexivity|].
  simpl split. destruct (Ascii.eqb_spec a c) as [->|Hne].
  - pose proof (split_nonempty c s) as Hs.
    destruct (split c s) as [|w ws] eqn:E; [congruence|].
    change (join (String c EmptyString) (EmptyString :: w :: ws))
      with (String c (join (String c EmptyString) (w :: ws))).
    rewrite IH. reflexivity.
  - pose proof (split_nonempty c s) as Hs.
    destruct (split c s) as [|w ws] eqn:E; [congruence|].
    destruct ws as [|w' ws].
    + simpl in IH. simpl. rewrite IH. reflexivity.
    + change (join (String c EmptyString) (String a w :: w' :: ws))
        with (String a (join (String c EmptyString) (w :: w' :: ws))).
      rewrite IH. reflexivity.
Qed.

Lemma removelast_app_last (l : list string) :
  l <> [] -> removelast l ++ [List.last l EmptyString] = l.
Proof. intros Hl. symmetry. apply app_removelast_last. exact Hl. Qed.

(** What [_iter_helper] yields: what the items of the dictionary yield. *)
Lemma elem_of_iter_helper (path_list : list string) (sep : string)
    (md_dict : gmap string node) (s : string) :
  s ∈ _iter_helper path_list sep md_dict
  <-> exists (k : string) (v : node),
        md_dict !! k = Some v /\ s ∈ iter_entry (path_list ++ [k]) sep v.
Proof.
  unfold _iter_helper. rewrite map_fold_foldr.
  assert (H : forall l : list (string * node),
            s ∈ foldr (uncurry (fun k v acc => iter_entry (path_list ++ [k]) sep v ++ acc))
                  [] l
            <-> exists (k : string) (v : node),
                  (k, v) ∈ l /\ s ∈ iter_entry (path_list ++ [k]) sep v).
  { induction l as [|[k v] l IH]; simpl.
    - split; [intros Hin; inversion Hin|intros (k & v & Hin & _); inversion Hin].
    - rewrite elem_of_app, IH. split.
      + intros [Hs|(k' & v' & Hin & Hs)].
        * exists k, v. split; [apply elem_of_cons; left; reflexivity|exact Hs].
        * exists k', v'. split; [apply elem_of_cons; right; exact Hin|exact Hs].
      + intros (k' & v' & Hin & Hs). apply elem_of_cons in Hin as [[= -> ->]|Hin].
        * left. exact Hs.
        * right. exists k', v'. split; assumption. }
  rewrite H. split; intros (k & v & Hkv & Hs); exists k, v; split; try assumption.
  - apply elem_of_map_to_list. exact Hkv.
  - apply elem_of_map_to_list. exact Hkv.
Qed.

Lemma iter_helper_after_walk (path : list string) (d : gmap string node)
    (prefix : list string) (sep k : string) (value units : pyval) :
  join sep (prefix ++ path ++ [k])
  ∈ _iter_helper prefix sep
      (fst (walk path d (fun tmp => (<[k := Leaf value units]> tmp, Return tt)))).
Proof.
  revert d prefix. induction path as [|k0 path IH]; intros d prefix.
  - simpl. apply elem_of_iter_helper. exists k, (Leaf value units).
    split; [apply lookup_insert_eq|]. simpl. apply list_elem_of_singleton. reflexivity.
  - simpl walk.
    set (sub := match d !! k0 with Some (Branch d0) => d0 | _ => ∅ end).
    specialize (IH sub (prefix ++ [k0])).
    destruct (walk path sub _) as [sub' r]. simpl in IH. simpl fst.
    apply elem_of_iter_helper. exists k0, (Branch sub').
    split; [apply lookup_insert_eq|].
    change (iter_entry (prefix ++ [k0]) sep (Branch sub'))
      with (_iter_helper (prefix ++ [k0]) sep sub').
    replace (prefix ++ (k0 :: path) ++ [k]) with ((prefix ++ [k0]) ++ path ++ [k])
      by (rewrite <- app_assoc; reflexivity).
    exact IH.
Qed.

(** X26: a key that was stored is among the names the iterator yields, and
    the length of the dictionary is at least one. *)
Theorem MD_dict_iter_after_setitem (_dict : gmap string node) (key : string)
    (val : pyval) :
  snd (MD_dict_setitem _dict key val) = Return tt ->
  key ∈ MD_dict_iter (fst (MD_dict_setitem _dict key val))
  /\ (1 <= MD_dict_len (fst (MD_dict_setitem _dict key val)))%nat.
Proof.
  intros Hret.
  assert (Hin : key ∈ MD_dict_iter (fst (MD_dict_setitem _dict key val))).
  { unfold MD_dict_setitem in *.
    destruct (coerce val) as [[value units]|e] eqn:Hc.
    - unfold MD_dict_iter.
      pose proof (iter_helper_after_walk (removelast (split "." key)) _dict [] "."
                    (List.last (split "." key) EmptyString) value units) as H.
      rewrite app_nil_l in H.
      rewrite (removelast_app_last _ (split_nonempty "." key)) in H.
      rewrite (join_split "." key) in H. exact H.
    - rewrite (walk_snd_const _ _ _ (Raise e)) in Hret by (intros tmp; reflexivity).
      discriminate. }
  split; [exact Hin|]. unfold MD_dict_len.
  destruct (MD_dict_iter _) as [|s l]; [inversion Hin|simpl; lia].
Qed.

Lemma MD_dict_iter_after_setitem_witness :
  "nested.b" ∈ MD_dict_iter (fst (MD_dict_setitem ∅ "nested.b" (VTuple [VInt 5; VStr "m"]))).
Proof.
  apply (MD_dict_iter_after_setitem ∅ "nested.b" (VTuple [VInt 5; VStr "m"])).
  reflexivity.
Defined.

End MDDictMore.

(** ** XR_data *)

Section XRData.

(** X27: on a mutable instance [self[key] = val] returns, [self[key]] then
    is [val], every other key reads as before, the data is untouched and
    [key] is among [meta_data_keys()]; on an immutable instance both setters
    raise [RuntimeError] and leave the instance as it was. *)
Theorem XR_data_setitem_getitem (self : XR_data) (key : string) (val : pyval) :
  (mutable self = true ->
   snd (XR_data_setitem self key val) = Returned tt
   /\ XR_data_getitem (fst (XR_data_setitem self key val)) key = Returned val
   /\ (forall k' : string, k' <> key ->
         XR_data_getitem (fst (XR_data_setitem self key val)) k'
         = XR_data_getitem self k')
   /\ XR_data_data (fst (XR_data_setitem self key val)) = XR_data_data self
   /\ key ∈ XR_data_meta_data_keys (fst (XR_data_setitem self key val)))
  /\ (mutable self = false ->
      XR_data_setitem self key val = (self, Raised RuntimeError)
      /\ XR_data_set_data self val = (self, Raised RuntimeError)).
Proof.
  split; intros Hm.
  - unfold XR_data_setitem, XR_data_getitem, XR_data_data, XR_data_meta_data_keys.
    rewrite Hm. simpl. split; [reflexivity|]. split; [|split; [|split]].
    + rewrite lookup_insert_eq. reflexivity.
    + intros k' Hne. rewrite lookup_insert_ne by congruence. reflexivity.
    + reflexivity.
    + apply list_elem_of_fmap. exists (key, val). split; [reflexivity|].
      apply elem_of_map_to_list. apply lookup_insert_eq.
  - unfold XR_data_setitem, XR_data_set_data. rewrite Hm. split; reflexivity.
Qed.

Lemma XR_data_setitem_getitem_witness :
  XR_data_getitem (fst (XR_data_setitem (XR_data_init (VInt 1) None None) "a" (VInt 2))) "a"
  = Returned (VInt 2).
Proof.
  apply (proj1 (XR_data_setitem_getitem (XR_data_init (VInt 1) None None) "a" (VInt 2))).
  reflexivity.
Defined.

End XRData.

(** * Properties on doubles *)

(** ** The order of doubles *)

Section FloatOrder.

Lemma SFcompare_refl (x : spec_float) : x <> S754_nan -> SFcompare x x = Some Eq.
Proof.
  destruct x as [s|s| |s m e]; intros Hx; cbn; try congruence.
  - destruct s; reflexivity.
  - rewrite Z.compare_refl, Pos.compare_cont_refl. destruct s; reflexivity.
Qed.

Lemma SFcompare_None (x y : spec_float) :
  SFcompare x y = None <-> x = S754_nan \/ y = S754_nan.
Proof.
  destruct x as [sx|sx| |sx mx ex], y as [sy|sy| |sy my ey]; cbn;
    split; intros H; try discriminate; try (destruct H; discriminate); auto.
Qed.

(** Numbers compare by sign, then exponent, then mantissa, which makes
    "not greater" transitive. *)
Lemma SFcompare_le_trans (x y z : spec_float) (c1 c2 : comparison) :
  SFcompare x y = Some c1 -> c1 <> Gt ->
  SFcompare y z = Some c2 -> c2 <> Gt ->
  exists c3 : comparison, SFcompare x z = Some c3 /\ c3 <> Gt.
Proof.
  destruct x as [sx|sx| |sx mx ex], y as [sy|sy| |sy my ey], z as [sz|sz| |sz mz ez];
    cbn; intros H1 Hc1 H2 Hc2; try discriminate;
    injection H1 as <-; injection H2 as <-;
    try (destruct sx; try congruence); try (destruct sy; try congruence);
    try (destruct sz; try congruence);
    try (eexists; split; [reflexivity|congruence]).
  all: try (exfalso; cbn in *; congruence).
  - revert Hc1 Hc2.
    destruct (Z.compare_spec ex ey), (Z.compare_spec ey ez), (Z.compare_spec ex ez);
      try lia; cbn; intros Hc1 Hc2; try congruence;
      try (eexists; split; [reflexivity|congruence]).
    subst. rewrite !Pos.compare_cont_spec in *. cbn in *.
    eexists; split; [reflexivity|].
    destruct (Pos.compare_spec mx my), (Pos.compare_spec my mz), (Pos.compare_spec mx mz);
      cbn in *; try congruence; lia.
  - revert Hc1 Hc2.
    destruct (Z.compare_spec ex ey), (Z.compare_spec ey ez), (Z.compare_spec ex ez);
      try lia; cbn; intros Hc1 Hc2; try congruence;
      try (eexists; split; [reflexivity|congruence]).
    subst. rewrite !Pos.compare_cont_spec in *. cbn in *.
    eexists; split; [reflexivity|].
    destruct (Pos.compare_spec mx my), (Pos.compare_spec my mz), (Pos.compare_spec mx mz);
      cbn in *; try congruence; lia.
Qed.

Lemma SFcompare_antisym (x y : spec_float) :
  SFcompare y x = option_map CompOpp (SFcompare x y).
Proof.
  destruct x as [sx|sx| |sx mx ex], y as [sy|sy| |sy my ey]; cbn;
    try reflexivity; try (destruct sx; reflexivity); try (destruct sy; reflexivity);
    try (destruct sx, sy; reflexivity).
  destruct sx, sy; cbn; try reflexivity.
  - rewrite (Z.compare_antisym ey ex).
    destruct (ey ?= ex)%Z; cbn; try reflexivity.
    pose proof (Pos.compare_cont_antisym mx my Eq) as Hm. cbn in Hm.
    rewrite <- Hm. destruct (Pos.compare_cont Eq mx my); reflexivity.
  - rewrite (Z.compare_antisym ey ex).
    destruct (ey ?= ex)%Z; cbn; try reflexivity.
    pose proof (Pos.compare_cont_antisym mx my Eq) as Hm. cbn in Hm.
    rewrite <- Hm. reflexivity.
Qed.

Lemma ltb_leb_false (a b : float) : (a <? b)%float = true -> (b <=? a)%float = false.
Proof.
  rewrite ltb_spec, leb_spec. unfold SFltb, SFleb.
  rewrite (SFcompare_antisym (Prim2SF a) (Prim2SF b)).
  destruct (SFcompare (Prim2SF a) (Prim2SF b)) as [[]|]; cbn; congruence.
Qed.

Lemma leb_ltb_false (a b : float) : (a <=? b)%float = true -> (b <? a)%float = false.
Proof.
  rewrite ltb_spec, leb_spec. unfold SFltb, SFleb.
  rewrite (SFcompare_antisym (Prim2SF a) (Prim2SF b)).
  destruct (SFcompare (Prim2SF a) (Prim2SF b)) as [[]|]; cbn; congruence.
Qed.

Lemma is_nan_spec (x : float) : is_nan x = true <-> Prim2SF x = S754_nan.
Proof.
  unfold is_nan. rewrite eqb_spec. unfold SFeqb. split.
  - intros H. destruct (Prim2SF x) as [s|s| |s m e] eqn:E; try reflexivity;
      rewrite SFcompare_refl in H by discriminate; discriminate.
  - intros ->. reflexivity.
Qed.

Lemma is_nan_false (x : float) : is_nan x = false <-> Prim2SF x <> S754_nan.
Proof.
  rewrite <- is_nan_spec. destruct (is_nan x); split; congruence.
Qed.

Lemma leb_not_nan (a b : float) :
  (a <=? b)%float = true -> is_nan a = false /\ is_nan b = false.
Proof.
  rewrite leb_spec. unfold SFleb. intros H. rewrite !is_nan_false.
  destruct (SFcompare (Prim2SF a) (Prim2SF b)) eqn:E; [|discriminate].
  split; intros Hn; rewrite Hn in E;
    [|destruct (Prim2SF a)]; discriminate.
Qed.

Lemma ltb_not_nan (a b : float) :
  (a <? b)%float = true -> is_nan a = false /\ is_nan b = false.
Proof.
  rewrite ltb_spec. unfold SFltb. intros H. rewrite !is_nan_false.
  destruct (SFcompare (Prim2SF a) (Prim2SF b)) eqn:E; [|discriminate].
  split; intros Hn; rewrite Hn in E;
    [|destruct (Prim2SF a)]; discriminate.
Qed.


(** Two numbers always compare: when [a < b] fails, [b <= a]. *)
Lemma ltb_false_leb (a b : float) :
  is_nan a = false -> is_nan b = false -> (a <? b)%float = false -> (b <=? a)%float = true.
Proof.
  rewrite !is_nan_false, ltb_spec, leb_spec. unfold SFltb, SFleb.
  intros Ha Hb. rewrite (SFcompare_antisym (Prim2SF a) (Prim2SF b)).
  destruct (SFcompare (Prim2SF a) (Prim2SF b)) as [[]|] eqn:E; cbn; try congruence.
  apply SFcompare_None in E. destruct E; contradiction.
Qed.

Lemma leb_false_ltb (a b : float) :
  is_nan a = false -> is_nan b = false -> (a <=? b)%float = false -> (b <? a)%float = true.
Proof.
  rewrite !is_nan_false, ltb_spec, leb_spec. unfold SFltb, SFleb.
  intros Ha Hb. rewrite (SFcompare_antisym (Prim2SF a) (Prim2SF b)).
  destruct (SFcompare (Prim2SF a) (Prim2SF b)) as [[]|] eqn:E; cbn; try congruence.
  apply SFcompare_None in E. destruct E; contradiction.
Qed.

Lemma leb_trans (a b c : float) :
  (a <=? b)%float = true -> (b <=? c)%float = true -> (a <=? c)%float = true.
Proof.
  rewrite !leb_spec. unfold SFleb. intros H1 H2.
  destruct (SFcompare (Prim2SF a) (Prim2SF b)) as [c1|] eqn:E1; [|discriminate].
  destruct (SFcompare (Prim2SF b) (Prim2SF c)) as [c2|] eqn:E2; [|discriminate].
  destruct (SFcompare_le_trans _ _ _ c1 c2 E1 ltac:(destruct c1; congruence)
              E2 ltac:(destruct c2; congruence)) as (c3 & -> & Hc3).
  destruct c3; congruence.
Qed.



Lemma leb_ltb_trans (a b c : float) :
  (a <=? b)%float = true -> (b <? c)%float = true -> (a <? c)%float = true.
Proof.
  intros H1 H2.
  destruct (leb_not_nan _ _ H1) as [Ha _]. destruct (ltb_not_nan _ _ H2) as [_ Hc].
  destruct (a <? c)%float eqn:E; [reflexivity|].
  pose proof (ltb_false_leb a c Ha Hc E) as Hca.
  pose proof (leb_trans _ _ _ Hca H1) as Hcb.
  rewrite (leb_ltb_false _ _ Hcb) in H2. discriminate.
Qed.

End FloatOrder.

(** ** bin_edges on doubles *)

Section BinEdges64.

Lemma last_map_arange {A : Type} (f : Z -> A) (n : Z) :
  (0 <= n)%Z -> last (map f (Np.arange (n + 1))) = Some (f n).
Proof.
  intros Hn. unfold Np.arange.
  replace (Z.to_nat (n + 1)) with (S (Z.to_nat n)) by lia.
  rewrite seq_S, !map_app. cbn [map]. rewrite last_snoc. f_equal. f_equal. lia.
Qed.

(** Python's floor division and [int] on some doubles. *)
Lemma floordiv_examples :
  Binary64.floordiv 7 2 = Return 3%float
  /\ Binary64.floordiv (-7) 2 = Return (-4)%float
  /\ Binary64.floordiv 1 0.1 = Return 9%float
  /\ Binary64.floordiv 2.1 0.3 = Return 7%float
  /\ Binary64.floordiv 1 0 = Raise ZeroDivisionError
  /\ Binary64.int 2.9 = Return 2%Z
  /\ Binary64.int (-2.9) = Return (-2)%Z
  /\ Binary64.int nan = Raise ValueError
  /\ Binary64.int infinity = Raise OverflowError.
Proof. repeat split; reflexivity. Qed.

(** C9: with [nbins] omitted and a step greater than the difference
    [range_max - range_min] as the doubles give it, the call raises
    [ValueError]. *)
Theorem bin_edges_step_too_large (range_min range_max step : float) :
  (range_max - range_min <? step)%float = true ->
  Binary64.bin_edges (Some range_min) (Some range_max) None (Some step)
  = ([], Raise ValueError).
Proof.
  intros Hstep. unfold Binary64.bin_edges.
  change (negb (sum_bools _ =? 3)%Z) with false. cbv iota.
  destruct (range_max <=? range_min)%float; [reflexivity|].
  rewrite Hstep. reflexivity.
Qed.

Lemma bin_edges_step_too_large_witness :
  Binary64.bin_edges (Some 0%float) (Some 10%float) None (Some 20%float)
  = ([], Raise ValueError).
Proof.
  apply (bin_edges_step_too_large 0 10 20). reflexivity.
Defined.

(** The claim as it stands, with the difference taken exactly, fails:
    2.2 is greater than 2.9 - 0.7 on the values of the three doubles, the
    difference rounds to 2.2, and the call returns one edge. *)
Lemma bin_edges_step_too_large_counterexample :
  exists range_min range_max step : Q,
    value_of 0.7 = Some range_min /\ value_of 2.9 = Some range_max
    /\ value_of 2.2 = Some step
    /\ range_max - range_min < step
    /\ Binary64.bin_edges (Some 0.7%float) (Some 2.9%float) None (Some 2.2%float)
       = ([], Return [0.7%float]).
Proof.
  eexists _, _, _.
  split; [reflexivity|]. split; [reflexivity|]. split; [reflexivity|].
  split; vm_compute; reflexivity.
Qed.

(** C2: for doubles [range_min < range_max] and a step not greater than
    the rounded difference, whose floor quotient
    [int((range_max - range_min) // step)] is a number [nbins >= 0], the
    call returns the edges [range_min + i * step] for [i] from 0 to
    [nbins], without the last one when it exceeds [range_max]; a gap
    between the last edge and [range_max] is at most logged. *)
Theorem bin_edges_step (range_min range_max step quotient : float) (nbins : Z) :
  (range_min <? range_max)%float = true ->
  (step <=? range_max - range_min)%float = true ->
  Binary64.floordiv (range_max - range_min) step = Return quotient ->
  Binary64.int quotient = Return nbins ->
  (0 <= nbins)%Z ->
  let edges := map (fun i => (range_min + Binary64.of_Z i * step)%float)
                 (Np.arange (nbins + 1)) in
  let top := (range_min + Binary64.of_Z nbins * step)%float in
  last edges = Some top
  /\ Binary64.bin_edges (Some range_min) (Some range_max) None (Some step)
     = (if (range_max <? top)%float then []
        else if (1e-10 * step <? range_max - top)%float
        then [Binary64.DebugTruncated range_min range_max step (range_max - top)]
        else [],
        Return (if (range_max <? top)%float then removelast edges else edges)).
Proof.
  intros Hlt Hle Hdiv Hint Hnb edges top.
  assert (Hlast : last edges = Some top).
  { unfold edges, top.
    exact (last_map_arange (fun i => (range_min + Binary64.of_Z i * step)%float)
             nbins Hnb). }
  split; [exact Hlast|].
  unfold Binary64.bin_edges.
  change (negb (sum_bools _ =? 3)%Z) with false. cbv iota.
  rewrite (ltb_leb_false _ _ Hlt), (leb_ltb_false _ _ Hle), Hdiv, Hint.
  cbv zeta.
  change (Binary64.scalar_add range_min
            (Binary64.mul_scalar (Np.arange (nbins + 1)) step)) with
    (map (fun v => (range_min + v)%float)
       (map (fun i => (Binary64.of_Z i * step)%float) (Np.arange (nbins + 1)))).
  rewrite map_map. fold edges.
  unfold index_last. rewrite Hlast.
  destruct (range_max <? top)%float; [reflexivity|].
  destruct (1e-10 * step <? range_max - top)%float; reflexivity.
Qed.

(** A gap that is logged: 10 is not a multiple of 3. *)
Lemma bin_edges_step_logged :
  Binary64.bin_edges (Some 0%float) (Some 10%float) None (Some 3%float)
  = ([Binary64.DebugTruncated 0 10 3 1], Return [0; 3; 6; 9]%float).
Proof. reflexivity. Qed.

Lemma bin_edges_step_witness :
  Binary64.bin_edges (Some (-3.0)%float) (Some (-0.9)%float) None (Some 0.3%float)
  = ([], Return [(-3)%float; (-2.7000000000000002)%float; (-2.3999999999999999)%float;
                 (-2.1000000000000001)%float; (-1.8)%float; (-1.5)%float;
                 (-1.2000000000000002)%float]).
Proof.
  destruct (bin_edges_step (-3.0) (-0.9) 0.3 7 7) as [_ Hrun].
  - reflexivity.
  - reflexivity.
  - reflexivity.
  - reflexivity.
  - discriminate.
  - rewrite Hrun. reflexivity.
Defined.

(** [range_min < range_max] alone does not make the call return: a step
    above the range raises [ValueError], a negative step [IndexError], a
    zero step [ZeroDivisionError]. *)
Lemma bin_edges_step_counterexample :
  (0 <? 10)%float = true
  /\ Binary64.bin_edges (Some 0%float) (Some 10%float) None (Some 20%float)
     = ([], Raise ValueError)
  /\ Binary64.bin_edges (Some 0%float) (Some 10%float) None (Some (-3)%float)
     = ([], Raise IndexError)
  /\ Binary64.bin_edges (Some 0%float) (Some 10%float) None (Some 0%float)
     = ([], Raise ZeroDivisionError).
Proof.
  repeat split; reflexivity.
Qed.

End BinEdges64.

(** ** numpy's order, sorting and searching *)

Section Sorting.











End Sorting.

(** ** np.histogram on doubles *)

Section Histogram64.



















(** The weights. *)









End Histogram64.

(** ** The order of the samples *)

Section Unique.











End Unique.

(** ** np.linspace, np.min and np.max on doubles *)

Section Linspace64.


















End Linspace64.

(** ** bin_1D on doubles *)

Section Bin1D64.




(** The edges are the rounded ones: the sample 1/3 is the second of the
    four edges from 0 to 1 and is counted in the second bin. *)
Lemma bin_1D_rounded_edge :
  exists e2 : float,
    Binary64.bin_1D [(1 / 3)%float] [1%float] (Some 3%Z) (Some 0%float) (Some 1%float)
    = Return ([0; 1 / 3; e2; 1]%float, [0; 1; 0]%float, [0; 1; 0]%Z).
Proof. eexists. vm_compute. reflexivity. Qed.

End Bin1D64.

(** * Properties of arrays with a dtype *)

(** ** img_subtraction_pre on arrays with a dtype *)

Section ImgSubtractionTyped.

Lemma wrap_mod (bits z : Z) : (0 <= bits)%Z -> Typed.wrap bits z = (z mod 2 ^ bits)%Z.
Proof. intros Hb. unfold Typed.wrap. apply Z.land_ones. exact Hb. Qed.

Lemma corrected_with_length {A : Type} (sub : A -> A -> A) (imgs : list A)
    (flags : list bool) (ref : A) :
  length flags = length imgs ->
  length (corrected_with sub imgs flags ref) = measured_before flags (length flags).
Proof.
  unfold measured_before. rewrite firstn_all.
  revert flags ref. induction imgs as [|img imgs IH]; intros [|f flags] ref Hlen;
    simpl in Hlen; try lia; [reflexivity|].
  simpl. destruct f.
  - rewrite filter_cons_False by discriminate. apply IH. lia.
  - rewrite filter_cons_True by reflexivity. simpl. f_equal. apply IH. lia.
Qed.

(** Position by position: the measured image at position [i] comes out at
    position [measured_before flags i], less the nearest reference image
    before it, or less [ref] when no reference image comes before it. *)
Lemma corrected_with_lookup {A : Type} (sub : A -> A -> A) (imgs : list A)
    (flags : list bool) (ref : A) (i : nat) (img : A) :
  imgs !! i = Some img -> flags !! i = Some false ->
  exists refimg : A,
    corrected_with sub imgs flags ref !! measured_before flags i = Some (sub img refimg)
    /\ ((exists r : nat,
           (r < i)%nat /\ flags !! r = Some true
           /\ (forall r' : nat, (r < r' < i)%nat -> flags !! r' = Some false)
           /\ imgs !! r = Some refimg)
        \/ ((forall r' : nat, (r' < i)%nat -> flags !! r' = Some false) /\ refimg = ref)).
Proof.
  revert flags ref i. induction imgs as [|im imgs IH]; intros [|f flags] ref i Hi Hf;
    try discriminate.
  destruct i as [|i].
  - simpl in Hi, Hf. injection Hi as ->. injection Hf as ->.
    exists ref. split; [reflexivity|]. right. split; [intros r' Hr'; lia|reflexivity].
  - simpl in Hi, Hf. rewrite measured_before_cons.
    destruct f; simpl.
    + destruct (IH flags im i Hi Hf) as (refimg & Hsub & Hcase).
      exists refimg. split; [exact Hsub|]. left.
      destruct Hcase as [(r & Hr & Hfr & Hbetween & Hir)|[Hall ->]].
      * exists (S r). split; [lia|]. split; [exact Hfr|]. split; [|exact Hir].
        intros [|r'] Hr'; [lia|]. simpl. apply Hbetween. lia.
      * exists 0%nat. split; [lia|]. split; [reflexivity|]. split; [|reflexivity].
        intros [|r'] Hr'; [lia|]. simpl. apply Hall. lia.
    + destruct (IH flags ref i Hi Hf) as (refimg & Hsub & Hcase).
      exists refimg. split; [exact Hsub|].
      destruct Hcase as [(r & Hr & Hfr & Hbetween & Hir)|[Hall ->]].
      * left. exists (S r). split; [lia|]. split; [exact Hfr|]. split; [|exact Hir].
        intros [|r'] Hr'; [lia|]. simpl. apply Hbetween. lia.
      * right. split; [|reflexivity].
        intros [|r'] Hr'; [reflexivity|]. simpl. apply Hall. lia.
Qed.

(** The loop over the pairs of [imgs] and [flags], entered with the
    reference image [ref] and [count] images written so far into [out]. *)
Lemma subtraction_loop_typed_run (dt : Typed.dtype) (imgs : list (Typed.image dt))
    (flags : list bool) (ref : Typed.image dt) (count : nat)
    (out : list (Typed.image dt)) :
  length flags = length imgs ->
  (count + length (corrected_with (Typed.img_sub dt) imgs flags ref) <= length out)%nat ->
  exists (ref' : Typed.image dt) (count' : nat),
    Typed.subtraction_loop dt (zip imgs flags) (ref, count, out)
    = Return (ref', count',
              overwrite out count (corrected_with (Typed.img_sub dt) imgs flags ref)).
Proof.
  revert flags ref count out.
  induction imgs as [|img imgs IH]; intros [|f flags] ref count out Hlen Hroom;
    simpl in Hlen; try lia.
  - cbn. rewrite overwrite_nil. eexists _, _. reflexivity.
  - cbn [zip zip_with Typed.subtraction_loop Typed.subtraction_step corrected_with]
      in Hroom |- *.
    destruct f.
    + apply IH; [lia|exact Hroom].
    + cbn [length] in Hroom.
      destruct (Nat.ltb_spec count (length out)) as [Hc|Hc]; [|lia].
      rewrite <- overwrite_insert by exact Hc.
      apply IH; [lia|]. rewrite length_insert. lia.
Qed.

(** The whole call on images and flags of equal length, the first flag
    being true. *)
Lemma img_subtraction_pre_typed_run (dt : Typed.dtype) (npix : nat)
    (img0 : Typed.image dt) (imgs : list (Typed.image dt)) (flags : list bool) :
  length flags = length imgs ->
  Typed.img_subtraction_pre dt npix (img0 :: imgs) (true :: flags)
  = Return (corrected_with (Typed.img_sub dt) imgs flags img0).
Proof.
  intros Hlen. unfold Typed.img_subtraction_pre. cbn [lookup list_lookup negb].
  pose proof (measured_plus_reference flags) as Hcount.
  pose proof (corrected_with_length (Typed.img_sub dt) imgs flags img0 Hlen) as Hout.
  assert (Href : length (filter (fun b : bool => b = true) (true :: flags))
                 = S (reference_count flags)).
  { rewrite filter_cons_True by reflexivity. reflexivity. }
  rewrite Href. cbn [length].
  set (n := (Z.of_nat (S (length imgs)) - Z.of_nat (S (reference_count flags)))%Z).
  assert (Hn : Z.to_nat n = measured_before flags (length flags)) by (unfold n; lia).
  destruct (Z.ltb_spec n 0) as [Hneg|_]; [unfold n in Hneg; lia|].
  change (drop 1 (img0 :: imgs)) with imgs.
  change (drop 1 (true :: flags)) with flags.
  destruct (subtraction_loop_typed_run dt imgs flags img0 0
              (replicate (Z.to_nat n) (replicate npix (Typed.zero dt))) Hlen)
    as (ref' & count' & Hloop).
  - rewrite length_replicate, Hout, Hn. lia.
  - unfold Typed.image in *. rewrite Hloop.
    rewrite overwrite_all by (rewrite length_replicate, Hout, Hn; reflexivity).
    reflexivity.
Qed.

(** C5: for images of any dtype and flags of equal length whose first flag
    is true, the call returns one corrected image per measured image: as
    many as there are images less the reference frames, the measured image
    at position [i] coming out, at the position given by the number of
    measured images before it, as that image minus the nearest preceding
    reference image, pixel by pixel in the arithmetic of the dtype.  That
    arithmetic is the difference modulo [2 ^ bits] for unsigned integers,
    the difference brought into the range from [- 2 ^ (bits - 1)] by a
    multiple of [2 ^ bits] for signed integers, and the rounded difference
    for doubles.  In particular [ref, a, b, ref2, c] with flags
    [T, F, F, T, F] gives [a - ref, b - ref, c - ref2]. *)
Theorem img_subtraction_pre_correct :
  (forall (dt : Typed.dtype) (npix : nat) (imgs : list (Typed.image dt))
          (flags : list bool),
     length flags = length imgs ->
     flags !! 0%nat = Some true ->
     exists out : list (Typed.image dt),
       Typed.img_subtraction_pre dt npix imgs flags = Return out
       /\ length out = (length imgs - reference_count flags)%nat
       /\ forall (i : nat) (img : Typed.image dt),
            imgs !! i = Some img -> flags !! i = Some false ->
            exists (r : nat) (ref : Typed.image dt),
              (r < i)%nat /\ flags !! r = Some true
              /\ (forall r' : nat, (r < r' < i)%nat -> flags !! r' = Some false)
              /\ imgs !! r = Some ref
              /\ out !! measured_before flags i
                 = Some (zip_with (Typed.subtract dt) img ref))
  /\ (forall bits a b : Z, (0 <= bits)%Z ->
        Typed.subtract (Typed.uint bits) a b = ((a - b) mod 2 ^ bits)%Z)
  /\ (forall bits a b : Z, (0 < bits)%Z ->
        exists k : Z,
          Typed.subtract (Typed.sint bits) a b = (a - b + k * 2 ^ bits)%Z
          /\ (- 2 ^ (bits - 1) <= Typed.subtract (Typed.sint bits) a b < 2 ^ (bits - 1))%Z)
  /\ (forall a b : float, Typed.subtract Typed.float64 a b = (a - b)%float)
  /\ (forall (dt : Typed.dtype) (npix : nat) (ref a b ref2 c : Typed.image dt),
        Typed.img_subtraction_pre dt npix [ref; a; b; ref2; c]
          [true; false; false; true; false]
        = Return [zip_with (Typed.subtract dt) a ref;
                  zip_with (Typed.subtract dt) b ref;
                  zip_with (Typed.subtract dt) c ref2]).
Proof.
  split; [|split; [|split; [|split]]].
  - intros dt npix imgs flags Hlen Hfirst.
    destruct flags as [|f flags]; [discriminate|]. injection Hfirst as ->.
    destruct imgs as [|img0 imgs]; [discriminate|].
    assert (Hlen' : length flags = length imgs) by (simpl in Hlen; lia).
    exists (corrected_with (Typed.img_sub dt) imgs flags img0).
    split; [apply img_subtraction_pre_typed_run; exact Hlen'|]. split.
    + rewrite corrected_with_length by exact Hlen'.
      pose proof (measured_plus_reference flags) as Hcount.
      assert (Href : reference_count (true :: flags) = S (reference_count flags)).
      { unfold reference_count. rewrite filter_cons_True by reflexivity. reflexivity. }
      rewrite Href. cbn [length]. lia.
    + intros i img Hi Hf.
      destruct (corrected_with_lookup (Typed.img_sub dt) (img0 :: imgs) (true :: flags)
                  img0 i img Hi Hf)
        as (refimg & Hsub & [(r & Hr & Hfr & Hbetween & Hir)|[Hall _]]).
      * exists r, refimg. repeat split; try assumption; apply Hbetween; lia.
      * exfalso. destruct i as [|i]; [discriminate|].
        specialize (Hall 0%nat (Nat.lt_0_succ i)). discriminate.
  - intros bits a b Hb. cbn. apply wrap_mod. exact Hb.
  - intros bits a b Hb. cbn.
    rewrite wrap_mod by lia.
    assert (Hpow : (2 ^ bits = 2 * 2 ^ (bits - 1))%Z).
    { rewrite <- Z.pow_succ_r by lia. f_equal. lia. }
    assert (Hpos : (0 < 2 ^ (bits - 1))%Z) by (apply Z.pow_pos_nonneg; lia).
    set (h := (2 ^ (bits - 1))%Z) in *.
    set (m := (2 ^ bits)%Z) in *.
    pose proof (Z.mod_pos_bound (a - b + h) m ltac:(lia)) as Hbound.
    pose proof (Z.div_mod (a - b + h) m ltac:(lia)) as Hdm.
    exists (- ((a - b + h) / m))%Z. split; [|lia]. nia.
  - reflexivity.
  - intros dt npix ref a b ref2 c.
    exact (img_subtraction_pre_typed_run dt npix ref [a; b; ref2; c]
             [false; false; true; false] eq_refl).
Qed.

Lemma img_subtraction_pre_correct_witness :
  exists out : list (list Z),
    Typed.img_subtraction_pre (Typed.uint 16) 2
      [[10; 10]; [11; 12]; [13; 9]; [1; 1]; [5; 6]]%Z
      [true; false; false; true; false]
    = Return out
    /\ length out = 3%nat.
Proof.
  destruct (proj1 img_subtraction_pre_correct (Typed.uint 16) 2%nat
              [[10; 10]; [11; 12]; [13; 9]; [1; 1]; [5; 6]]%Z
              [true; false; false; true; false])
    as (out & Hrun & Hlen & _).
  - reflexivity.
  - reflexivity.
  - exists out. split; [exact Hrun|exact Hlen].
Defined.

(** The difference itself is not what comes out when the dtype cannot hold
    it: on unsigned 16-bit images a pixel 5 less a reference pixel 10 is
    65531. *)
Lemma img_subtraction_pre_correct_counterexample :
  Typed.img_subtraction_pre (Typed.uint 16) 1 [[10%Z]; [5%Z]] [true; false]
  = Return [[65531%Z]]
  /\ (65531 <> 5 - 10)%Z.
Proof.
  split; [reflexivity|discriminate].
Qed.

End ImgSubtractionTyped.
